(** * xlint: the pre-commit lint hook (src/xlint.js)

    A shallow embedding of the one source file of the repository and the
    properties of its outcome mapping.

    - [JS]: the fragment of JavaScript the script relies on: values and
      truthiness, strict equality against primitives, object fields and
      array elements, [String.prototype.split] with a string separator, and
      a backtracking matcher for the regular expression literal of the path
      filter.
    - [Effects]: completions ([return], [throw], normal), a trace of the
      observable calls (subprocess, console, lint engine), [try]/[catch] and
      [await].
    - [Xlint]: [os_run] and the exported asynchronous function.
    - [Spec], [Examples], [Listing]: the vocabulary of the statements
      (retained paths, staged runs, listings of paths) and concrete runs.

    Strings are sequences of code units; the script only compares code units
    for equality, so they are modelled by [string]. *)

From Stdlib Require Import String Ascii List ZArith Bool Arith Lia DecimalString.
Import ListNotations.

Local Open Scope string_scope.
Local Open Scope list_scope.

(* ------------------------------------------------------------------ *)
(** ** The JavaScript fragment *)

Module JS.

(** Line feed and carriage return, and the two terminators built from them. *)
Definition LF : ascii := "010"%char.
Definition CR : ascii := "013"%char.
Definition str_LF : string := String LF EmptyString.
Definition str_CRLF : string := String CR (String LF EmptyString).

#[local] Set Warnings "-register-all".

(** Values.  [VError] is an [Error] object carrying its message; [VObject]
    is an object literal, its fields in insertion order; [VArray] is an
    array. *)
Inductive jsval : Type :=
| VUndefined
| VNull
| VBool (b : bool)
| VNum (n : Z)
| VStr (s : string)
| VError (message : string)
| VObject (fields : list (string * jsval))
| VArray (items : list jsval).

Definition object : Type := list (string * jsval).

(** [o.k]: the value of field [k], [undefined] when [o] has no such field. *)
Fixpoint get (o : object) (k : string) : jsval :=
  match o with
  | [] => VUndefined
  | (k', v) :: rest => if String.eqb k k' then v else get rest k
  end.

(** [o.k = v]. *)
Fixpoint set (o : object) (k : string) (v : jsval) : object :=
  match o with
  | [] => [(k, v)]
  | (k', v') :: rest =>
      if String.eqb k k' then (k, v) :: rest else (k', v') :: set rest k v
  end.

(** ToBoolean. *)
Definition truthy (v : jsval) : bool :=
  match v with
  | VUndefined | VNull => false
  | VBool b => b
  | VNum n => negb (n =? 0)%Z
  | VStr s => negb (String.eqb s EmptyString)
  | VError _ | VObject _ | VArray _ => true
  end.

(** [a === b] where one side is a primitive, which is the only way the script
    uses it: same type and same value.  An object is never [===] to a
    primitive (identity of objects is not needed and not modelled). *)
Definition strict_eq (a b : jsval) : bool :=
  match a, b with
  | VUndefined, VUndefined => true
  | VNull, VNull => true
  | VBool x, VBool y => Bool.eqb x y
  | VNum x, VNum y => (x =? y)%Z
  | VStr x, VStr y => String.eqb x y
  | _, _ => false
  end.

(** The canonical decimal spelling of an index. *)
Definition decimal (n : nat) : string :=
  NilEmpty.string_of_uint (Nat.to_uint n).

(** The element of an array, the first of which has index [i], that the
    name [k] denotes; [undefined] when [k] is the index of none. *)
Fixpoint element (items : list jsval) (i : nat) (k : string) : jsval :=
  match items with
  | [] => VUndefined
  | x :: rest => if String.eqb k (decimal i) then x else element rest (S i) k
  end.

(** [v] is [null] or [undefined]. *)
Definition nullish (v : jsval) : bool :=
  match v with
  | VUndefined | VNull => true
  | _ => false
  end.

(** [v.k] on a value that is not [null] or [undefined], for a name [k] that
    the built-in prototypes do not define (the script reads four such names
    off the lint result): an own field of an object, the message of an
    [Error], the length or an element of an array or of a string, and
    [undefined] otherwise. *)
Definition own (v : jsval) (k : string) : jsval :=
  match v with
  | VObject fields => get fields k
  | VError message => if String.eqb k "message" then VStr message else VUndefined
  | VArray items =>
      if String.eqb k "length" then VNum (Z.of_nat (List.length items))
      else element items 0 k
  | VStr s =>
      if String.eqb k "length" then VNum (Z.of_nat (String.length s))
      else element (map (fun c => VStr (String c EmptyString))
                        (list_ascii_of_string s)) 0 k
  | VUndefined | VNull | VBool _ | VNum _ => VUndefined
  end.

(** [xs.includes(x)] on an array of strings. *)
Definition includes (xs : list string) (x : string) : bool :=
  existsb (String.eqb x) xs.

(** *** [String.prototype.split] with a string separator

    The scan of the language definition: at each position, if the separator
    occurs there, the segment read so far is emitted and the scan resumes after
    the occurrence; otherwise the code unit joins the segment.  [skip] counts
    the code units of a matched occurrence still to pass over. *)
Fixpoint split_scan (sep : string) (skip : nat) (seg s : string) : list string :=
  match s with
  | EmptyString => [seg]
  | String c s' =>
      match skip with
      | S k => split_scan sep k seg s'
      | O =>
          if String.prefix sep s
          then seg :: split_scan sep (String.length sep - 1) EmptyString s'
          else split_scan sep 0 (seg ++ String c EmptyString) s'
      end
  end.

(** With the empty separator the string is cut into its code units. *)
Definition split (s sep : string) : list string :=
  match sep with
  | EmptyString => map (fun c => String c EmptyString) (list_ascii_of_string s)
  | _ => split_scan sep 0 EmptyString s
  end.

(** *** Regular expressions: the constructs of the literal [/(t|j)sx?$/g] *)
Inductive regex : Type :=
| Chr (c : ascii)            (* a literal character *)
| Alt (r1 r2 : regex)        (* r1|r2 *)
| Seq (r1 r2 : regex)        (* r1r2 *)
| Opt (r : regex)            (* r?, greedy *)
| Eos.                       (* $ without the m flag: end of input only *)

(** Backtracking match of [r] at the head of [s], then the continuation [k]
    on what is left. *)
Fixpoint rmatch (r : regex) (k : string -> bool) (s : string) : bool :=
  match r with
  | Chr c =>
      match s with
      | String d s' => if Ascii.eqb c d then k s' else false
      | EmptyString => false
      end
  | Alt r1 r2 => rmatch r1 k s || rmatch r2 k s
  | Seq r1 r2 => rmatch r1 (rmatch r2 k) s
  | Opt r1 => rmatch r1 k s || k s
  | Eos =>
      match s with
      | EmptyString => k s
      | String _ _ => false
      end
  end.

(** [r.test(s)] on a regular expression object fresh from its literal (its
    [lastIndex] is 0): is there a match starting at some position of [s],
    the end included. *)
Fixpoint test (r : regex) (s : string) : bool :=
  rmatch r (fun _ => true) s ||
  match s with
  | EmptyString => false
  | String _ s' => test r s'
  end.

End JS.

(* ------------------------------------------------------------------ *)
(** ** Effects: trace, completions, try/catch, promises *)

Module Effects.
Import JS.

(** The observable calls of a run, in order. *)
Inductive event : Type :=
| EvExec (cmd : string)                   (* child_process.exec(cmd, ...) *)
| EvLog (args : list jsval)               (* console.log(...args) *)
| EvNewESLint                             (* new ESLint() *)
| EvLintFiles (files : list string)       (* eslint.lintFiles(files) *)
| EvLoadFormatter (name : string)         (* eslint.loadFormatter(name) *)
| EvFormat (results : jsval).             (* formatter.format(results) *)

Definition trace : Type := list event.

(** The events that reach the lint engine. *)
Definition is_lint_event (e : event) : bool :=
  match e with
  | EvNewESLint | EvLintFiles _ | EvLoadFormatter _ | EvFormat _ => true
  | EvExec _ | EvLog _ => false
  end.

(** How a piece of code completes: normally with a value, by [return v], or
    by [throw v]. *)
Inductive completion (A : Type) : Type :=
| Normal (a : A)
| Return (v : jsval)
| Throw (v : jsval).
Arguments Normal {A} a.
Arguments Return {A} v.
Arguments Throw {A} v.

Definition M (A : Type) : Type := trace * completion A.

Definition ret {A} (a : A) : M A := ([], Normal a).
Definition return_ {A} (v : jsval) : M A := ([], Return v).
Definition throw {A} (v : jsval) : M A := ([], Throw v).
Definition emit (e : event) : M unit := ([e], Normal tt).

Definition bind {A B} (m : M A) (f : A -> M B) : M B :=
  match m with
  | (t, Normal a) => let (t', c) := f a in (t ++ t', c)
  | (t, Return v) => (t, Return v)
  | (t, Throw v) => (t, Throw v)
  end.

Notation "x <- m ;; k" := (bind m (fun x => k))
  (at level 61, m at next level, right associativity).
Notation "m ;; k" := (bind m (fun _ => k))
  (at level 61, right associativity).

(** [try { body } catch (e) { handler e }]. *)
Definition try_catch {A} (body : M A) (handler : jsval -> M A) : M A :=
  match body with
  | (t, Throw v) => let (t', c) := handler v in (t ++ t', c)
  | other => other
  end.

Definition console_log (args : list jsval) : M unit := emit (EvLog args).

(** The result of a call into a collaborator: a value, or a thrown value (for
    an asynchronous call under [await], a rejection). *)
Inductive result (A : Type) : Type :=
| Ok (a : A)
| Raise (e : jsval).
Arguments Ok {A} a.
Arguments Raise {A} e.

Definition call {A} (e : event) (r : result A) : M A :=
  ([e], match r with Ok a => Normal a | Raise v => Throw v end).

(** An evaluation that calls nothing observable. *)
Definition eval {A} (r : result A) : M A :=
  ([], match r with Ok a => Normal a | Raise v => Throw v end).

Definition and_then {A B} (r : result A) (f : A -> result B) : result B :=
  match r with
  | Ok a => f a
  | Raise e => Raise e
  end.

(** [v.k], for a name [k] as in [own]: reading a property of [null] or
    [undefined] throws a [TypeError]. *)
Definition read (v : jsval) (k : string) : result jsval :=
  if nullish v
  then Raise (VError ("Cannot read properties of "
                      ++ (if strict_eq v VNull then "null" else "undefined")
                      ++ " (reading '" ++ k ++ "')"))
  else Ok (own v k).

(** [v == 0].  On a number, a boolean, [null] and [undefined] the comparison
    is computed.  On a string or an object it goes through the conversion of
    the value to a primitive (its own [valueOf] and [toString]) and of a
    string to a number (a rounding to floating point), which may throw; that
    part is not computed here and is taken as [convert]. *)
Definition loose_eq_zero (convert : jsval -> result bool) (v : jsval) : result bool :=
  match v with
  | VNum n => Ok (n =? 0)%Z
  | VBool b => Ok (negb b)
  | VUndefined | VNull => Ok false
  | VStr _ | VError _ | VObject _ | VArray _ => convert v
  end.

(** A settled promise. *)
Inductive promise (A : Type) : Type :=
| Fulfilled (v : A)
| Rejected (reason : jsval).
Arguments Fulfilled {A} v.
Arguments Rejected {A} reason.

(** [await p]: the value of a fulfilled promise; a rejected one throws its
    reason. *)
Definition await {A} (p : trace * promise A) : M A :=
  match p with
  | (t, Fulfilled v) => (t, Normal v)
  | (t, Rejected e) => (t, Throw e)
  end.

(** The promise an [async function] returns for its body. *)
Definition async (body : M unit) : trace * promise jsval :=
  match body with
  | (t, Normal _) => (t, Fulfilled VUndefined)
  | (t, Return v) => (t, Fulfilled v)
  | (t, Throw v) => (t, Rejected v)
  end.

Definition completes_normally {A} (m : M A) : bool :=
  match m with
  | (_, Normal _) => true
  | _ => false
  end.

End Effects.

(* ------------------------------------------------------------------ *)
(** ** The script *)

Module Xlint.
Import JS Effects.
Local Open Scope string_scope.

(** *** The collaborators

    What [exec] hands to its callback: an [Error] (here its message) or
    [null], and the two captured streams. *)
Record ExecOutcome : Type := mkExecOutcome {
  exec_error : option string;
  exec_stdout : string;
  exec_stderr : string
}.

(** The lint engine: [new ESLint()], [lintFiles], [loadFormatter] and the
    formatter's [format], each of which may throw.  What [lintFiles]
    resolves with is any value: the ESLint class resolves with an array of
    results, one per file.  [converts_to_zero] is how a string or an object
    among the values of this engine compares with 0 under [==] (see
    [loose_eq_zero]). *)
Record Formatter : Type := mkFormatter {
  format : jsval -> result string
}.

Record ESLint : Type := mkESLint {
  lintFiles : list string -> result jsval;
  loadFormatter : string -> result Formatter;
  converts_to_zero : jsval -> result bool
}.

(** Everything outside the script that a run depends on. *)
Record World : Type := mkWorld {
  platform : string;                 (* process.platform *)
  exec : string -> ExecOutcome;      (* child_process.exec *)
  new_ESLint : result ESLint         (* the ESLint constructor *)
}.

(** *** Constants *)
Definition errors : object :=
  [ ("GENERAL_ERROR", VNum 1);
    ("COMMAND_CANNOT_EXECUTE", VNum 126) ].

Definition ignored_files : list string :=
  [ "scripts/pre-commit.js" ].

(** [/(t|j)sx?$/] *)
Definition source_file_re : regex :=
  Seq (Alt (Chr "t") (Chr "j")) (Seq (Chr "s") (Seq (Opt (Chr "x")) Eos)).

Definition git_cmd : string := "git --no-pager diff --cached --name-only".

(** *** [os_run] *)
Definition os_run (w : World) (cmd : string) : trace * promise object :=
  let error := exec_error (exec w cmd) in
  let stdout := exec_stdout (exec w cmd) in
  let stderr := exec_stderr (exec w cmd) in
  match error with
  | Some message =>
      let ret := [ ("error", VError message); ("stderr", VNull) ] in
      let err_message :=
        "failed to execute cmd: " ++ cmd ++ ", error: " ++ message in
      let first_log := EvLog [VStr err_message] in
      let '(ret, err_message) :=
        if truthy (VStr stderr)
        then (set ret "stderr" (VStr stderr),
              err_message ++ " with stderr: " ++ stderr)
        else (ret, err_message) in
      ([EvExec cmd; first_log; EvLog [VStr err_message]], Rejected (VObject ret))
  | None =>
      if truthy (VStr stdout) then
        ([EvExec cmd], Fulfilled [ ("success", VBool true); ("stdout", VStr stdout) ])
      else if truthy (VStr stderr) then
        let ret := [ ("error", VStr "UNKNOWN_ERROR"); ("stderr", VNull) ] in
        let err_message := "unknown error when executing cmd: " ++ cmd in
        let err_message := err_message ++ " with stderr: " ++ stderr in
        let ret := set ret "stderr" (VStr stderr) in
        ([EvExec cmd; EvLog [VStr err_message]], Rejected (VObject ret))
      else
        ([EvExec cmd], Fulfilled [ ("success", VBool true); ("stdout", VNull) ])
  end.

(** *** The path filter (lines 77 to 86) *)
Definition new_line (platform : string) : string :=
  if strict_eq (VStr platform) (VStr "win32") then str_CRLF else str_LF.

Definition keep (cf : string) : bool :=
  negb (String.length cf =? 0)%nat
  && test source_file_re cf
  && negb (includes ignored_files cf).

Definition changed_files (platform stdout : string) : list string :=
  filter keep (split stdout (new_line platform)).

(** *** The [try]/[catch] block around the lint engine (lines 89 to 109) *)

(** The condition of lines 95 to 100, evaluated from left to right: each of
    the four fields is read off what [lintFiles] resolved with, and a
    comparison that fails ends the evaluation.  The third comparison is
    [==], the others are [===]. *)
Definition no_findings (eslint : ESLint) (results : jsval) : result bool :=
  and_then (read results "errorCount") (fun errorCount =>
  if negb (strict_eq errorCount (VNum 0)) then Ok false else
  and_then (read results "warningCount") (fun warningCount =>
  if negb (strict_eq warningCount (VNum 0)) then Ok false else
  and_then (read results "fixableErrorCount") (fun fixableErrorCount =>
  and_then (loose_eq_zero (converts_to_zero eslint) fixableErrorCount) (fun zero =>
  if negb zero then Ok false else
  and_then (read results "fixableWarningCount") (fun fixableWarningCount =>
  Ok (strict_eq fixableWarningCount (VNum 0))))))).

Definition lint_try (w : World) (files : list string) : M unit :=
  eslint <- call EvNewESLint (new_ESLint w) ;;
  results <- call (EvLintFiles files) (lintFiles eslint files) ;;
  formatter <- call (EvLoadFormatter "stylish") (loadFormatter eslint "stylish") ;;
  prettyResults <- call (EvFormat results) (format formatter results) ;;
  console_log [VStr prettyResults] ;;
  none <- eval (no_findings eslint results) ;;
  if (none : bool)
  then return_ (VNum 0)
  else (console_log [VStr "LINTING ERRORS"] ;;
        throw (get errors "GENERAL_ERROR")).

Definition lint_catch (eslint_error : jsval) : M unit :=
  console_log [VStr "Failed to run ESLint, error: "; eslint_error] ;;
  throw (get errors "COMMAND_CANNOT_EXECUTE").

Definition lint_block (w : World) (files : list string) : M unit :=
  try_catch (lint_try w files) lint_catch.

(** *** The three [if] statements of the exported function, in order *)

(** Lines 58 to 64. *)
Definition if_resolver_error (response : object) : M unit :=
  if truthy (get response "error") then
    if strict_eq (get response "error") (VStr "UNKNOWN_ERROR")
    then throw (get errors "GENERAL_ERROR")
    else throw (get errors "COMMAND_CANNOT_EXECUTE")
  else ret tt.

(** Lines 69 to 71. *)
Definition if_nothing_staged (response : object) : M unit :=
  if truthy (get response "success")
     && strict_eq (get response "stdout") VNull
  then return_ (VNum 0)
  else ret tt.

(** Lines 88 to 112: [if (changed_files.length) { try ... } else { return 0 }]. *)
Definition lint_changed (w : World) (files : list string) : M unit :=
  if negb (List.length files =? 0)%nat
  then lint_block w files
  else return_ (VNum 0).

(** Lines 74 to 113.  A truthy [stdout] that is not a string has no [split]
    method: calling it throws a [TypeError], outside the [try] block. *)
Definition if_staged (w : World) (response : object) : M unit :=
  if truthy (get response "success") && truthy (get response "stdout") then
    match get response "stdout" with
    | VStr stdout => lint_changed w (changed_files (platform w) stdout)
    | _ => throw (VError "response.stdout.split is not a function")
    end
  else ret tt.

(** The body up to, and without, the last statement (lines 55 to 113). *)
Definition handled (w : World) : M unit :=
  response <- await (os_run w git_cmd) ;;
  if_resolver_error response ;;
  if_nothing_staged response ;;
  if_staged w response.

(** *** The exported function (lines 52 to 121) *)
Definition module_exports_body (w : World) : M unit :=
  handled w ;;
  throw (get errors "GENERAL_ERROR").

Definition module_exports (w : World) : trace * promise jsval :=
  async (module_exports_body w).

End Xlint.

(* ------------------------------------------------------------------ *)
(** ** The vocabulary of the specification *)

Module Spec.
Import JS Effects Xlint.
Local Open Scope string_scope.

(** The four recognized extension spellings. *)
Definition source_extensions : list string := [ "js"; "jsx"; "ts"; "tsx" ].

(** The reserved self-path. *)
Definition reserved_path : string := "scripts/pre-commit.js".

(** [s] ends in [suffix]. *)
Fixpoint ends_with (s suffix : string) : bool :=
  String.eqb s suffix ||
  match s with
  | EmptyString => false
  | String _ s' => ends_with s' suffix
  end.

Definition has_source_extension (path : string) : bool :=
  existsb (ends_with path) source_extensions.

(** The entries the specification says the path filter retains. *)
Definition retained (path : string) : bool :=
  has_source_extension path && negb (String.eqb path reserved_path).

(** The resolver (the awaited [os_run] of the staged-files command) logged
    [t] and yielded [stdout] as its output. *)
Definition resolver_yields (w : World) (t : trace) (stdout : jsval) : Prop :=
  exists response,
    os_run w git_cmd = (t, Fulfilled response) /\ get response "stdout" = stdout.

(** The resolver yielded text and [files], not empty, is what the path filter
    left of it. *)
Definition staged (w : World) (t : trace) (files : list string) : Prop :=
  exists stdout,
    resolver_yields w t (VStr stdout) /\
    files = changed_files (platform w) stdout /\
    files <> [].

(** The lint engine, asked about [files], reports [results], which the
    formatter renders as [pretty]. *)
Definition engine_reports (w : World) (files : list string)
    (results : jsval) (pretty : string) : Prop :=
  exists eslint formatter,
    new_ESLint w = Ok eslint /\
    lintFiles eslint files = Ok results /\
    loadFormatter eslint "stylish" = Ok formatter /\
    format formatter results = Ok pretty.

(** One of the four calls into the lint engine throws [e]. *)
Definition engine_throws (w : World) (files : list string) (e : jsval) : Prop :=
  new_ESLint w = Raise e \/
  exists eslint, new_ESLint w = Ok eslint /\
    (lintFiles eslint files = Raise e \/
     exists results, lintFiles eslint files = Ok results /\
       (loadFormatter eslint "stylish" = Raise e \/
        exists formatter, loadFormatter eslint "stylish" = Ok formatter /\
          format formatter results = Raise e)).

(** The findings aggregate of the specification: four counts. *)
Record Aggregate : Type := mkAggregate {
  errorCount : Z;
  warningCount : Z;
  fixableErrorCount : Z;
  fixableWarningCount : Z
}.

(** The object that carries the four counts of an aggregate as its fields. *)
Definition aggregate_value (counts : Aggregate) : jsval :=
  VObject [ ("errorCount", VNum (errorCount counts));
            ("warningCount", VNum (warningCount counts));
            ("fixableErrorCount", VNum (fixableErrorCount counts));
            ("fixableWarningCount", VNum (fixableWarningCount counts)) ].

(** The condition of lines 95 to 100 holds of [results], a value of the
    engine [eslint]: its fields errorCount, warningCount and
    fixableWarningCount are the number 0 and its field fixableErrorCount
    compares equal to 0 under [==]. *)
Definition counts_pass (eslint : ESLint) (results : jsval) : Prop :=
  nullish results = false /\
  own results "errorCount" = VNum 0 /\
  own results "warningCount" = VNum 0 /\
  loose_eq_zero (converts_to_zero eslint) (own results "fixableErrorCount")
  = Ok true /\
  own results "fixableWarningCount" = VNum 0.

(** The same, of the engine that [w] constructs. *)
Definition passes (w : World) (results : jsval) : Prop :=
  exists eslint, new_ESLint w = Ok eslint /\ counts_pass eslint results.

(** How the condition of lines 95 to 100 evaluates on [results] in a run of
    [w]: true, false, or a throw. *)
Definition counts_condition (w : World) (results : jsval) : result bool :=
  match new_ESLint w with
  | Ok eslint => no_findings eslint results
  | Raise e => Raise e
  end.

(** The four counts of an aggregate are all zero. *)
Definition all_zero (counts : Aggregate) : bool :=
  (errorCount counts =? 0)%Z
  && (warningCount counts =? 0)%Z
  && (fixableErrorCount counts =? 0)%Z
  && (fixableWarningCount counts =? 0)%Z.

(** The four extensions, with their dot, and the paths that end in one. *)
Definition dotted_extensions : list string := [ ".js"; ".jsx"; ".ts"; ".tsx" ].

Definition has_dotted_extension (path : string) : bool :=
  existsb (ends_with path) dotted_extensions.

(** At least one of the four counts is not zero. *)
Definition some_finding (results : Aggregate) : Prop :=
  errorCount results <> 0%Z \/ warningCount results <> 0%Z \/
  fixableErrorCount results <> 0%Z \/ fixableWarningCount results <> 0%Z.

(** No event of [t] reaches the lint engine. *)
Definition no_lint_event (t : trace) : Prop :=
  forallb (fun e => negb (is_lint_event e)) t = true.

Definition GENERAL_ERROR : jsval := VNum 1.
Definition COMMAND_CANNOT_EXECUTE : jsval := VNum 126.

End Spec.

(* ------------------------------------------------------------------ *)
(** ** Concrete runs *)

Module Examples.
Import JS Effects Xlint.
Local Open Scope string_scope.

(** A formatter that renders every value. *)
Definition plain_formatter : Formatter := mkFormatter (fun _ => Ok "report").

(** The example engines return counts that are numbers or [undefined], on
    which [==] is computed: the conversion is never asked. *)
Definition unasked : jsval -> result bool := fun _ => Ok false.

(** An engine that reports the aggregate object of [results] for every list
    of files. *)
Definition engine_reporting (results : Spec.Aggregate) : result ESLint :=
  Ok (mkESLint (fun _ => Ok (Spec.aggregate_value results))
               (fun _ => Ok plain_formatter) unasked).

Definition clean : Spec.Aggregate := Spec.mkAggregate 0 0 0 0.
Definition one_warning : Spec.Aggregate := Spec.mkAggregate 0 1 0 0.

(** The result of the ESLint class for one file: its path, its messages and
    its four counts. *)
Definition file_result (path : string) (messages : list jsval)
    (counts : Spec.Aggregate) : jsval :=
  VObject [ ("filePath", VStr path);
            ("messages", VArray messages);
            ("errorCount", VNum (Spec.errorCount counts));
            ("warningCount", VNum (Spec.warningCount counts));
            ("fixableErrorCount", VNum (Spec.fixableErrorCount counts));
            ("fixableWarningCount", VNum (Spec.fixableWarningCount counts)) ].

(** An engine that resolves [lintFiles] the way the ESLint class does: with
    the array of the results of the files, here all without a finding. *)
Definition eslint_class_clean : result ESLint :=
  Ok (mkESLint (fun files => Ok (VArray (map (fun f => file_result f [] clean) files)))
               (fun _ => Ok plain_formatter) unasked).

(** An engine whose [lintFiles] throws. *)
Definition engine_broken : result ESLint :=
  Ok (mkESLint (fun _ => Raise (VError "No ESLint configuration found"))
               (fun _ => Ok plain_formatter) unasked).

(** The command prints [stdout] and nothing on its error stream. *)
Definition prints (stdout : string) : string -> ExecOutcome :=
  fun _ => mkExecOutcome None stdout EmptyString.

(** The command cannot be run. *)
Definition fails (message : string) : string -> ExecOutcome :=
  fun _ => mkExecOutcome (Some message) EmptyString EmptyString.

Definition a_tsx_and_readme : string :=
  "src/a.tsx" ++ str_LF ++ "README.md" ++ str_LF.
Definition a_ts_b_js : string := "a.ts" ++ str_LF ++ "b.js" ++ str_LF.
Definition only_the_hook : string := "scripts/pre-commit.js" ++ str_LF.
Definition only_readme : string := "README.md" ++ str_LF.

End Examples.

(* ------------------------------------------------------------------ *)
(** ** Vocabulary for listings and traces *)

Module Listing.
Import JS Effects Xlint.
Local Open Scope string_scope.

(** The code unit [c] occurs in [s]. *)
Fixpoint has_unit (c : ascii) (s : string) : bool :=
  match s with
  | EmptyString => false
  | String d s' => Ascii.eqb c d || has_unit c s'
  end.

(** [x] occurs in [s] as a run of consecutive code units. *)
Definition occurs_in (x s : string) : Prop := exists a b, s = a ++ x ++ b.

(** A path that holds neither a carriage return nor a line feed. *)
Definition plain (path : string) : Prop :=
  has_unit CR path = false /\ has_unit LF path = false.

(** The text that lists [paths], each followed by [terminator]: what
    [git diff --name-only] prints. *)
Fixpoint listing (terminator : string) (paths : list string) : string :=
  match paths with
  | [] => EmptyString
  | p :: rest => p ++ terminator ++ listing terminator rest
  end.


Definition is_log (e : event) : bool :=
  match e with
  | EvLog _ => true
  | _ => false
  end.

(** Two runs that differ in what the command wrote to its error stream. *)
Definition chatty (stdout stderr : string) : string -> ExecOutcome :=
  fun _ => mkExecOutcome None stdout stderr.

End Listing.

(* ------------------------------------------------------------------ *)
(** ** Properties *)

Import JS Effects Xlint Spec Examples.
Local Open Scope string_scope.

(** *** The regular expression of the path filter *)

Section PathFilter.

Lemma ends_with_iff (s suffix : string) :
  ends_with s suffix = true <-> exists pre, s = pre ++ suffix.
Proof.
  induction s as [|c s IH]; cbn [ends_with].
  - rewrite orb_false_r, String.eqb_eq. split.
    + intros <-. now exists EmptyString.
    + intros [[|d pre] H]; simpl in H; [congruence | discriminate].
  - rewrite orb_true_iff, String.eqb_eq, IH. split.
    + intros [<- | [pre ->]]; [now exists EmptyString | now exists (String c pre)].
    + intros [[|d pre] H]; simpl in H; [now left | right].
      injection H as _ ->. now exists pre.
Qed.

(** Case analysis on every comparison of code units in the goal. *)
Ltac ascii_cases :=
  repeat match goal with
    | |- context [Ascii.eqb ?x ?y] =>
        destruct (Ascii.eqb_spec x y); subst;
        cbn [andb orb negb]; try congruence
    end.

(** Anchored at a position, the expression matches exactly the four
    spellings. *)
Lemma match_at_head (s : string) :
  rmatch source_file_re (fun _ => true) s
  = existsb (String.eqb s) source_extensions.
Proof.
  destruct s as [|a [|b [|c [|d s]]]];
    cbn [rmatch source_file_re existsb source_extensions String.eqb andb orb];
    try reflexivity; ascii_cases; reflexivity.
Qed.

Lemma test_source_file_re (s : string) :
  test source_file_re s = has_source_extension s.
Proof.
  unfold has_source_extension.
  induction s as [|c s IH].
  - reflexivity.
  - change (test source_file_re (String c s))
      with (rmatch source_file_re (fun _ => true) (String c s)
            || test source_file_re s).
    rewrite IH, match_at_head.
    cbn [existsb source_extensions ends_with].
    repeat rewrite orb_false_r.
    generalize (String c s =? "js") (String c s =? "jsx")
      (String c s =? "ts") (String c s =? "tsx")
      (ends_with s "js") (ends_with s "jsx")
      (ends_with s "ts") (ends_with s "tsx").
    intros [] [] [] [] [] [] [] []; reflexivity.
Qed.

Lemma keep_retained (cf : string) : keep cf = retained cf.
Proof.
  unfold keep, retained, includes, ignored_files, reserved_path.
  rewrite test_source_file_re. cbn [existsb]. rewrite orb_false_r.
  destruct cf as [|c cf]; reflexivity.
Qed.

Lemma retained_iff (cf : string) :
  retained cf = true <->
  (exists pre ext, In ext source_extensions /\ cf = pre ++ ext) /\
  cf <> reserved_path.
Proof.
  unfold retained, has_source_extension.
  rewrite andb_true_iff, negb_true_iff, String.eqb_neq, existsb_exists.
  split; intros [H Hne]; split; trivial.
  - destruct H as (ext & Hin & Hend). apply ends_with_iff in Hend as [pre ->].
    now exists pre, ext.
  - destruct H as (pre & ext & Hin & ->). exists ext. split; trivial.
    apply ends_with_iff. now exists pre.
Qed.

End PathFilter.

(** *** Splitting and a trailing terminator *)

Section Split.

Lemma prefix_empty (s : string) : String.prefix EmptyString s = true.
Proof. destruct s; reflexivity. Qed.

Lemma split_scan_LF_trailing (s seg : string) :
  split_scan str_LF 0 seg (s ++ str_LF)
  = (split_scan str_LF 0 seg s ++ [EmptyString])%list.
Proof.
  revert seg. induction s as [|c s IH]; intros seg.
  - reflexivity.
  - cbn [append split_scan String.prefix str_LF String.length Nat.sub].
    rewrite !prefix_empty.
    destruct (ascii_dec LF c); rewrite IH; reflexivity.
Qed.

(** The two-unit terminator needs the statement at [s] and one unit further,
    since a match passes over two units at once. *)
Lemma split_scan_CRLF_trailing (s : string) :
  (forall seg, split_scan str_CRLF 0 seg (s ++ str_CRLF)
               = (split_scan str_CRLF 0 seg s ++ [EmptyString])%list) /\
  (forall seg c, split_scan str_CRLF 0 seg (String c s ++ str_CRLF)
               = (split_scan str_CRLF 0 seg (String c s) ++ [EmptyString])%list).
Proof.
  induction s as [|d s [IH0 IH1]].
  - split; [reflexivity|]. intros seg c.
    cbn [append split_scan String.prefix str_CRLF String.length Nat.sub].
    destruct (ascii_dec CR c) as [<-|]; [|reflexivity].
    destruct (ascii_dec LF CR); [discriminate|reflexivity].
  - split; [exact (fun seg => IH1 seg d)|]. intros seg c.
    cbn [append split_scan String.prefix str_CRLF String.length Nat.sub].
    rewrite !prefix_empty.
    destruct (ascii_dec CR c); [destruct (ascii_dec LF d)|].
    + cbn [app split_scan]. f_equal. apply IH0.
    + apply (IH1 _ d).
    + apply (IH1 _ d).
Qed.

Lemma split_trailing (platform s : string) :
  split (s ++ new_line platform) (new_line platform)
  = (split s (new_line platform) ++ [EmptyString])%list.
Proof.
  unfold new_line. destruct (strict_eq _ _).
  - apply split_scan_CRLF_trailing.
  - apply split_scan_LF_trailing.
Qed.

Lemma filter_keep_trailing (l : list string) :
  filter keep (l ++ [EmptyString]) = filter keep l.
Proof. rewrite filter_app. cbn. apply app_nil_r. Qed.

Lemma new_line_cases (platform : string) :
  (platform = "win32" /\ new_line platform = str_CRLF) \/
  (platform <> "win32" /\ new_line platform = str_LF).
Proof.
  unfold new_line, strict_eq.
  destruct (String.eqb_spec platform "win32"); auto.
Qed.

End Split.

(** *** The shape of a run *)

Section Runs.

Variable w : World.

Lemma bind_abrupt {A B} (m : M A) (f : A -> M B) :
  completes_normally m = false ->
  bind m f = (fst m, match snd m with
                     | Normal _ => Throw VUndefined
                     | Return v => Return v
                     | Throw v => Throw v
                     end).
Proof. destruct m as [t [a|v|v]]; [discriminate | reflexivity | reflexivity]. Qed.

(** What [os_run] resolves with, and when. *)
Lemma os_run_fulfilled (cmd : string) (t : trace) (r : object) :
  os_run w cmd = (t, Fulfilled r) ->
  t = [EvExec cmd] /\
  exec_error (exec w cmd) = None /\
  ((exec_stdout (exec w cmd) <> EmptyString /\
    r = [ ("success", VBool true);
          ("stdout", VStr (exec_stdout (exec w cmd))) ]) \/
   (exec_stdout (exec w cmd) = EmptyString /\
    exec_stderr (exec w cmd) = EmptyString /\
    r = [ ("success", VBool true); ("stdout", VNull) ])).
Proof.
  unfold os_run, truthy.
  destruct (exec_error (exec w cmd)) as [message|].
  - destruct (negb _); discriminate.
  - destruct (String.eqb_spec (exec_stdout (exec w cmd)) EmptyString) as [E|E];
      cbn [negb].
    + destruct (String.eqb_spec (exec_stderr (exec w cmd)) EmptyString) as [E'|E'];
        cbn [negb]; [|discriminate].
      intros [= <- <-]. auto 6.
    + intros [= <- <-]. auto 6.
Qed.

(** What [os_run] rejects with, and when. *)
Lemma os_run_rejected (cmd : string) (t : trace) (e : jsval) :
  os_run w cmd = (t, Rejected e) ->
  exists error stderr,
    e = VObject [ ("error", error); ("stderr", stderr) ] /\
    ((exists message,
        exec_error (exec w cmd) = Some message /\ error = VError message) \/
     (exec_error (exec w cmd) = None /\ error = VStr "UNKNOWN_ERROR")).
Proof.
  unfold os_run, truthy.
  destruct (exec_error (exec w cmd)) as [message|].
  - destruct (negb _); intros [= <- <-]; cbn; eauto 8.
  - destruct (negb _); [discriminate|].
    destruct (negb _); [|discriminate].
    intros [= <- <-]. cbn. eauto 8.
Qed.

Lemma os_run_prints (cmd stdout stderr : string) :
  exec w cmd = mkExecOutcome None stdout stderr ->
  stdout <> EmptyString ->
  os_run w cmd
  = ([EvExec cmd], Fulfilled [ ("success", VBool true); ("stdout", VStr stdout) ]).
Proof.
  intros Hexec Hne. unfold os_run, truthy. rewrite Hexec. cbn.
  apply String.eqb_neq in Hne. now rewrite Hne.
Qed.

(** The condition of lines 95 to 100 on the values of interest. *)
Lemma strict_eq_zero (v : jsval) : strict_eq v (VNum 0) = true <-> v = VNum 0.
Proof.
  destruct v; cbn; try (split; [discriminate | discriminate]).
  rewrite Z.eqb_eq. split; [now intros -> | now intros [= ->]].
Qed.

Lemma no_findings_true (eslint : ESLint) (results : jsval) :
  no_findings eslint results = Ok true <-> counts_pass eslint results.
Proof.
  unfold no_findings, counts_pass, read.
  destruct (nullish results); [cbn; split; [discriminate | intros [[=] _]]|].
  cbn [and_then].
  destruct (strict_eq (own results "errorCount") (VNum 0)) eqn:E1; cbn [negb].
  - apply strict_eq_zero in E1.
    destruct (strict_eq (own results "warningCount") (VNum 0)) eqn:E2; cbn [negb].
    + apply strict_eq_zero in E2.
      destruct (loose_eq_zero _ _) as [[|]|] eqn:E3; cbn [and_then negb].
      * split.
        -- intros [= H]. apply strict_eq_zero in H. auto.
        -- intros (_ & _ & _ & _ & H). apply strict_eq_zero in H. now rewrite H.
      * split; [discriminate | intros (_ & _ & _ & [=] & _)].
      * split; [discriminate | intros (_ & _ & _ & [=] & _)].
    + split; [discriminate|]. intros (_ & _ & H & _).
      apply strict_eq_zero in H. congruence.
  - split; [discriminate|]. intros (_ & H & _).
    apply strict_eq_zero in H. congruence.
Qed.

Lemma no_findings_aggregate (eslint : ESLint) (counts : Aggregate) :
  no_findings eslint (aggregate_value counts) = Ok (all_zero counts).
Proof.
  unfold no_findings, all_zero, read, aggregate_value.
  cbn [nullish own get String.eqb Ascii.eqb Bool.eqb and_then strict_eq
       loose_eq_zero].
  destruct (errorCount counts =? 0)%Z; cbn [negb andb]; [|reflexivity].
  destruct (warningCount counts =? 0)%Z; cbn [negb andb]; [|reflexivity].
  destruct (fixableErrorCount counts =? 0)%Z; cbn [negb andb]; reflexivity.
Qed.

(** No index is spelled like the name of a count. *)
Lemma element_errorCount (items : list jsval) (i : nat) :
  element items i "errorCount" = VUndefined.
Proof.
  revert i. induction items as [|x items IH]; intros i; [reflexivity|].
  cbn [element]. rewrite IH.
  unfold decimal. destruct (Nat.to_uint i); reflexivity.
Qed.

Lemma no_findings_array (eslint : ESLint) (items : list jsval) :
  no_findings eslint (VArray items) = Ok false.
Proof.
  unfold no_findings, read.
  cbn [nullish own String.eqb Ascii.eqb Bool.eqb and_then].
  now rewrite element_errorCount.
Qed.

Lemma counts_condition_true (results : jsval) :
  counts_condition w results = Ok true <-> passes w results.
Proof.
  unfold counts_condition, passes. destruct (new_ESLint w) as [eslint|e].
  - rewrite no_findings_true. split; [eauto|].
    now intros (eslint' & [= <-] & H).
  - split; [discriminate | intros (eslint' & [=] & _)].
Qed.

Lemma counts_condition_aggregate (files : list string) (counts : Aggregate)
    (pretty : string) :
  engine_reports w files (aggregate_value counts) pretty ->
  counts_condition w (aggregate_value counts) = Ok (all_zero counts).
Proof.
  intros (eslint & _ & H & _). unfold counts_condition. rewrite H.
  apply no_findings_aggregate.
Qed.

Lemma counts_condition_array (files : list string) (items : list jsval)
    (pretty : string) :
  engine_reports w files (VArray items) pretty ->
  counts_condition w (VArray items) = Ok false.
Proof.
  intros (eslint & _ & H & _). unfold counts_condition. rewrite H.
  apply no_findings_array.
Qed.

(** The [try]/[catch] block ends in [return 0] or in a [throw]. *)
Lemma lint_block_abrupt (files : list string) :
  completes_normally (lint_block w files) = false.
Proof.
  unfold lint_block, lint_try.
  destruct (new_ESLint w) as [eslint|]; [cbn|reflexivity].
  destruct (lintFiles eslint files) as [results|]; [cbn|reflexivity].
  destruct (loadFormatter eslint "stylish") as [formatter|]; [cbn|reflexivity].
  destruct (format formatter results); [cbn|reflexivity].
  destruct (no_findings eslint results) as [[|]|]; reflexivity.
Qed.

Lemma lint_changed_abrupt (files : list string) :
  completes_normally (lint_changed w files) = false.
Proof.
  unfold lint_changed. destruct (negb _); [apply lint_block_abrupt | reflexivity].
Qed.

Lemma lint_changed_empty : lint_changed w [] = ([], Return (VNum 0)).
Proof. reflexivity. Qed.

Lemma lint_changed_nonempty (files : list string) :
  files <> [] -> lint_changed w files = lint_block w files.
Proof. destruct files; [congruence | reflexivity]. Qed.

(** The engine reports: the block logs the report and ends by the condition
    on the counts.  A [throw] of the block, for findings or from reading the
    counts, is caught by its own handler. *)
Lemma lint_block_reports (files : list string) (results : jsval)
    (pretty : string) :
  engine_reports w files results pretty ->
  lint_block w files =
  match counts_condition w results with
  | Ok true =>
      ([ EvNewESLint; EvLintFiles files; EvLoadFormatter "stylish";
         EvFormat results; EvLog [VStr pretty] ],
       Return (VNum 0))
  | Ok false =>
      ([ EvNewESLint; EvLintFiles files; EvLoadFormatter "stylish";
         EvFormat results; EvLog [VStr pretty];
         EvLog [VStr "LINTING ERRORS"];
         EvLog [VStr "Failed to run ESLint, error: "; VNum 1] ],
       Throw (VNum 126))
  | Raise e =>
      ([ EvNewESLint; EvLintFiles files; EvLoadFormatter "stylish";
         EvFormat results; EvLog [VStr pretty];
         EvLog [VStr "Failed to run ESLint, error: "; e] ],
       Throw (VNum 126))
  end.
Proof.
  intros (eslint & formatter & H1 & H2 & H3 & H4).
  unfold lint_block, lint_try, counts_condition. rewrite H1. cbn. rewrite H2. cbn.
  rewrite H3. cbn. rewrite H4. cbn.
  destruct (no_findings eslint results) as [[|]|]; reflexivity.
Qed.

(** The engine throws: the handler logs what was thrown and throws 126. *)
Lemma lint_block_throws (files : list string) (e : jsval) :
  engine_throws w files e ->
  exists t,
    lint_block w files =
    ((t ++ [EvLog [VStr "Failed to run ESLint, error: "; e]])%list,
     Throw (VNum 126)) /\
    forall ev, In ev t -> is_lint_event ev = true.
Proof.
  unfold lint_block, lint_try.
  intros [H1 | (eslint & H1 & [H2 | (results & H2 & [H3 | (formatter & H3 & H4)])])];
    rewrite H1; cbn; try (rewrite H2; cbn); try (rewrite H3; cbn);
    try (rewrite H4; cbn).
  - exists [EvNewESLint]. split; [reflexivity|].
    intros ev [<-|[]]; reflexivity.
  - exists [EvNewESLint; EvLintFiles files]. split; [reflexivity|].
    intros ev [<-|[<-|[]]]; reflexivity.
  - exists [EvNewESLint; EvLintFiles files; EvLoadFormatter "stylish"].
    split; [reflexivity|].
    intros ev [<-|[<-|[<-|[]]]]; reflexivity.
  - exists [EvNewESLint; EvLintFiles files; EvLoadFormatter "stylish";
            EvFormat results].
    split; [reflexivity|].
    intros ev [<-|[<-|[<-|[<-|[]]]]]; reflexivity.
Qed.

(** The block starts with the constructor, and asks the engine about the
    list it was given and no other. *)
Lemma lint_block_calls (files : list string) :
  (exists t, fst (lint_block w files) = EvNewESLint :: t) /\
  (forall files', In (EvLintFiles files') (fst (lint_block w files)) ->
                  files' = files) /\
  (forall eslint, new_ESLint w = Ok eslint ->
                  In (EvLintFiles files) (fst (lint_block w files))).
Proof.
  unfold lint_block, lint_try.
  destruct (new_ESLint w) as [eslint|]; cbn.
  - destruct (lintFiles eslint files) as [results|]; cbn.
    + destruct (loadFormatter eslint "stylish") as [formatter|]; cbn.
      * destruct (format formatter results); cbn.
        -- destruct (no_findings eslint results) as [[|]|]; cbn;
             (split; [eauto | split; [|auto]]);
             intros files' H; decompose [or] H; congruence || contradiction.
        -- split; [eauto | split; [|auto]].
           intros files' H; decompose [or] H; congruence || contradiction.
      * split; [eauto | split; [|auto]].
        intros files' H; decompose [or] H; congruence || contradiction.
    + split; [eauto | split; [|auto]].
      intros files' H; decompose [or] H; congruence || contradiction.
  - split; [eauto | split; [|discriminate]].
    intros files' H; decompose [or] H; congruence || contradiction.
Qed.

(** The statements before the last one, by what the resolver did. *)
Lemma handled_rejected (t : trace) (e : jsval) :
  os_run w git_cmd = (t, Rejected e) -> handled w = (t, Throw e).
Proof. unfold handled. intros ->. reflexivity. Qed.

Lemma handled_null (t : trace) :
  resolver_yields w t VNull -> handled w = (t, Return (VNum 0)).
Proof.
  intros (r & Hrun & Hout). unfold handled. rewrite Hrun.
  apply os_run_fulfilled in Hrun as (_ & _ & [[_ ->] | (_ & _ & ->)]);
    [discriminate Hout|].
  cbn. now rewrite app_nil_r.
Qed.

Lemma handled_staged (t : trace) (stdout : string) :
  resolver_yields w t (VStr stdout) ->
  handled w =
  ((t ++ fst (lint_changed w (changed_files (platform w) stdout)))%list,
   snd (lint_changed w (changed_files (platform w) stdout))).
Proof.
  intros (r & Hrun & Hout). unfold handled. rewrite Hrun.
  apply os_run_fulfilled in Hrun as (_ & _ & [[Hne ->] | (_ & _ & ->)]);
    [|discriminate Hout].
  injection Hout as Hout. rewrite Hout in *.
  cbn [await bind if_resolver_error if_nothing_staged get String.eqb Ascii.eqb
       Bool.eqb truthy strict_eq ret andb app].
  unfold if_staged.
  cbn [get String.eqb Ascii.eqb Bool.eqb truthy andb].
  apply String.eqb_neq in Hne. rewrite Hne. cbn [negb].
  destruct (lint_changed w _) as [t' c]. reflexivity.
Qed.

(** Control never leaves the handled statements normally. *)
Lemma handled_abrupt : completes_normally (handled w) = false.
Proof.
  destruct (os_run w git_cmd) as [t [r|e]] eqn:Hrun.
  - destruct (os_run_fulfilled _ _ _ Hrun) as (_ & _ & [[Hne Hr] | (_ & _ & Hr)]).
    + rewrite (handled_staged t (exec_stdout (exec w git_cmd))).
      * generalize (lint_changed_abrupt
                      (changed_files (platform w) (exec_stdout (exec w git_cmd)))).
        destruct (lint_changed _ _) as [t' [|?|?]]; trivial.
      * exists r. subst r. auto.
    + rewrite (handled_null t); [reflexivity|]. exists r. subst r. auto.
  - now rewrite (handled_rejected t e).
Qed.

Lemma module_exports_handled : module_exports w = async (handled w).
Proof.
  unfold module_exports, module_exports_body.
  rewrite (bind_abrupt _ _ handled_abrupt).
  generalize handled_abrupt.
  destruct (handled w) as [t [|?|?]]; [discriminate| |]; reflexivity.
Qed.

Lemma module_exports_null (t : trace) :
  resolver_yields w t VNull -> module_exports w = (t, Fulfilled (VNum 0)).
Proof.
  intros H. now rewrite module_exports_handled, (handled_null t H).
Qed.

Lemma module_exports_staged (t : trace) (files : list string) :
  staged w t files ->
  module_exports w
  = async ((t ++ fst (lint_block w files))%list, snd (lint_block w files)).
Proof.
  intros (stdout & Hres & -> & Hne).
  rewrite module_exports_handled, (handled_staged t stdout Hres).
  now rewrite lint_changed_nonempty.
Qed.

End Runs.

(** *** The outcome mapping *)

Lemma all_zero_true (counts : Aggregate) :
  all_zero counts = true <->
  errorCount counts = 0%Z /\ warningCount counts = 0%Z /\
  fixableErrorCount counts = 0%Z /\ fixableWarningCount counts = 0%Z.
Proof.
  unfold all_zero. rewrite !andb_true_iff, !Z.eqb_eq. tauto.
Qed.

Lemma some_finding_all_zero (counts : Aggregate) :
  some_finding counts -> all_zero counts = false.
Proof.
  intros H. destruct (all_zero counts) eqn:E; trivial.
  apply all_zero_true in E. unfold some_finding in H. tauto.
Qed.

(** The two codes of the [errors] table. *)
Lemma errors_codes :
  get errors "GENERAL_ERROR" = GENERAL_ERROR /\
  get errors "COMMAND_CANNOT_EXECUTE" = COMMAND_CANNOT_EXECUTE.
Proof. split; reflexivity. Qed.

Lemma no_lint_event_exec (cmd : string) : no_lint_event [EvExec cmd].
Proof. reflexivity. Qed.

(** The dead branch of lines 58 to 64 maps the object [os_run] rejects with
    to the two codes; the rejection never reaches it. *)
Lemma if_resolver_error_intended (w : World) (t : trace) (e : object) :
  os_run w git_cmd = (t, Rejected (VObject e)) ->
  if_resolver_error e
  = ([], Throw (if strict_eq (get e "error") (VStr "UNKNOWN_ERROR")
                then GENERAL_ERROR else COMMAND_CANNOT_EXECUTE)).
Proof.
  intros H. apply os_run_rejected in H as (error & stderr & [= ->] & H).
  unfold if_resolver_error. cbn [get String.eqb Ascii.eqb andb].
  destruct H as [(message & _ & ->) | (_ & ->)]; reflexivity.
Qed.

(** C1 (the code departs from the claim).  When the lint engine reports an
    aggregate in which at least one of the four counts is not zero, the
    function throws GENERAL_ERROR inside its own [try] block; the handler
    catches it, logs it as a failure to run the engine, and the run is
    rejected with 126 (COMMAND_CANNOT_EXECUTE), not with 1. *)
Theorem findings_rejected_with_126 (w : World) (t : trace)
    (files : list string) (results : Aggregate) (pretty : string) :
  staged w t files ->
  engine_reports w files (aggregate_value results) pretty ->
  some_finding results ->
  snd (module_exports w) = Rejected COMMAND_CANNOT_EXECUTE /\
  snd (module_exports w) <> Rejected GENERAL_ERROR /\
  In (EvLog [VStr "Failed to run ESLint, error: "; GENERAL_ERROR])
     (fst (module_exports w)).
Proof.
  intros Hst Hrep Hsome.
  rewrite (module_exports_staged w t files Hst),
          (lint_block_reports w files _ pretty Hrep),
          (counts_condition_aggregate w files results pretty Hrep),
          (some_finding_all_zero results Hsome).
  cbn [async fst snd]. repeat split.
  - discriminate.
  - apply in_or_app. right. cbn. auto 8.
Qed.

Lemma findings_rejected_with_126_witness :
  snd (module_exports (mkWorld "linux" (prints a_ts_b_js) (engine_reporting one_warning)))
  = Rejected COMMAND_CANNOT_EXECUTE.
Proof.
  apply (findings_rejected_with_126
           (mkWorld "linux" (prints a_ts_b_js) (engine_reporting one_warning))
           [EvExec git_cmd] ["a.ts"; "b.js"] one_warning "report").
  - exists a_ts_b_js. split; [|split].
    + eexists. split; reflexivity.
    + reflexivity.
    + discriminate.
  - eexists. eexists. repeat split.
  - right. left. discriminate.
Defined.

(** C2 (the code departs from the claim).  When [os_run] fails it rejects its
    promise, so the [await] throws and the function is rejected with the
    object [os_run] built, [{error, stderr}]: neither 1 nor 126.  The branch
    that maps the failure to the two codes is never reached. *)
Theorem resolver_failure_rejects_with_object (w : World) (t : trace) (e : jsval) :
  os_run w git_cmd = (t, Rejected e) ->
  module_exports w = (t, Rejected e) /\
  (exists error stderr, e = VObject [ ("error", error); ("stderr", stderr) ]) /\
  e <> GENERAL_ERROR /\ e <> COMMAND_CANNOT_EXECUTE.
Proof.
  intros H. split.
  - now rewrite module_exports_handled, (handled_rejected w t e H).
  - apply os_run_rejected in H as (error & stderr & -> & _).
    repeat split; [eauto | discriminate | discriminate].
Qed.

Lemma resolver_failure_rejects_with_object_witness :
  module_exports (mkWorld "linux" (fails "spawn git ENOENT") (engine_reporting clean))
  = ([ EvExec git_cmd;
       EvLog [VStr ("failed to execute cmd: " ++ git_cmd ++ ", error: spawn git ENOENT")];
       EvLog [VStr ("failed to execute cmd: " ++ git_cmd ++ ", error: spawn git ENOENT")] ],
     Rejected (VObject [ ("error", VError "spawn git ENOENT"); ("stderr", VNull) ])).
Proof.
  apply (resolver_failure_rejects_with_object
           (mkWorld "linux" (fails "spawn git ENOENT") (engine_reporting clean))).
  reflexivity.
Defined.

(** The branch of lines 95 to 101 is the one taken on an object that carries
    four zero counts as its own fields, which is not what the ESLint class
    resolves with. *)
Lemma zero_aggregate_fulfils (w : World) (t : trace)
    (files : list string) (counts : Aggregate) (pretty : string) :
  staged w t files ->
  engine_reports w files (aggregate_value counts) pretty ->
  all_zero counts = true ->
  module_exports w =
  ((t ++ [ EvNewESLint; EvLintFiles files; EvLoadFormatter "stylish";
           EvFormat (aggregate_value counts); EvLog [VStr pretty] ])%list,
   Fulfilled (VNum 0)).
Proof.
  intros Hst Hrep Hz.
  rewrite (module_exports_staged w t files Hst),
          (lint_block_reports w files _ pretty Hrep),
          (counts_condition_aggregate w files counts pretty Hrep), Hz.
  reflexivity.
Qed.

(** C4 (the code departs from the claim).  The ESLint class resolves
    [lintFiles] with the array of the results of the files.  The function
    reads the four counts off that array, where they are undefined, so the
    condition of lines 95 to 100 fails at its first comparison whatever the
    counts of the files: the function throws GENERAL_ERROR inside its own
    [try] block and the run is rejected with 126.  A lint without a finding
    does not resolve with 0. *)
Theorem clean_lint_rejected_with_126 (w : World) (t : trace)
    (files : list string) (per_file : list jsval) (pretty : string) :
  staged w t files ->
  engine_reports w files (VArray per_file) pretty ->
  module_exports w =
  ((t ++ [ EvNewESLint; EvLintFiles files; EvLoadFormatter "stylish";
           EvFormat (VArray per_file); EvLog [VStr pretty];
           EvLog [VStr "LINTING ERRORS"];
           EvLog [VStr "Failed to run ESLint, error: "; GENERAL_ERROR] ])%list,
   Rejected COMMAND_CANNOT_EXECUTE) /\
  snd (module_exports w) <> Fulfilled (VNum 0).
Proof.
  intros Hst Hrep.
  rewrite (module_exports_staged w t files Hst),
          (lint_block_reports w files _ pretty Hrep),
          (counts_condition_array w files per_file pretty Hrep).
  split; [reflexivity | discriminate].
Qed.

Lemma clean_lint_rejected_with_126_witness :
  module_exports (mkWorld "linux" (prints a_ts_b_js) eslint_class_clean) =
  (([EvExec git_cmd]
    ++ [ EvNewESLint; EvLintFiles ["a.ts"; "b.js"]; EvLoadFormatter "stylish";
         EvFormat (VArray [file_result "a.ts" [] clean; file_result "b.js" [] clean]);
         EvLog [VStr "report"];
         EvLog [VStr "LINTING ERRORS"];
         EvLog [VStr "Failed to run ESLint, error: "; GENERAL_ERROR] ])%list,
   Rejected COMMAND_CANNOT_EXECUTE) /\
  snd (module_exports (mkWorld "linux" (prints a_ts_b_js) eslint_class_clean))
  <> Fulfilled (VNum 0).
Proof.
  apply (clean_lint_rejected_with_126
           (mkWorld "linux" (prints a_ts_b_js) eslint_class_clean)
           [EvExec git_cmd] ["a.ts"; "b.js"]
           [file_result "a.ts" [] clean; file_result "b.js" [] clean] "report").
  - exists a_ts_b_js. split; [|split].
    + eexists. split; reflexivity.
    + reflexivity.
    + discriminate.
  - eexists. eexists. repeat split.
Defined.

(** The expression tests the last code units alone and asks for no dot
    before them, against the comment of line 82: a path such as etc/hosts,
    which ends in ts, passes it. *)
Example suffix_without_dot :
  changed_files "linux" ("etc/hosts" ++ str_LF ++ "lib/x.mjs" ++ str_LF ++ "a.css" ++ str_LF)
  = ["etc/hosts"; "lib/x.mjs"].
Proof. reflexivity. Qed.

(** Where the terminator is the line feed, the raw output is cut at each
    line feed. *)
Lemma changed_files_LF (platform stdout : string) :
  new_line platform = str_LF ->
  changed_files platform stdout = filter keep (split stdout str_LF).
Proof. unfold changed_files. now intros ->. Qed.

(** The claim of C3 read on every host: on 'win32' the sample listing holds no
    two-unit terminator, stays one entry that ends in a line feed, and is
    filtered out; the lint engine is not invoked at all. *)
Lemma sample_listing_on_win32 :
  changed_files "win32" a_tsx_and_readme = [] /\
  changed_files "win32" a_tsx_and_readme <> ["src/a.tsx"] /\
  module_exports (mkWorld "win32" (prints a_tsx_and_readme) (engine_reporting clean))
  = ([EvExec git_cmd], Fulfilled (VNum 0)).
Proof. repeat split. discriminate. Qed.

Lemma append_unit (pre : string) (c : ascii) (s : string) :
  pre ++ String c s = (pre ++ String c EmptyString) ++ s.
Proof. induction pre as [|x pre IH]; cbn; [reflexivity | now rewrite IH]. Qed.

(** A path that ends in one of the four extensions ends in one of the four
    spellings. *)
Lemma dotted_has_source_extension (cf : string) :
  has_dotted_extension cf = true -> has_source_extension cf = true.
Proof.
  unfold has_dotted_extension, has_source_extension.
  rewrite !existsb_exists. intros (ext & Hin & Hend).
  apply ends_with_iff in Hend as [pre ->]. cbn in Hin.
  destruct Hin as [<-|[<-|[<-|[<-|[]]]]].
  - exists "js". split; [cbn; auto|]. apply ends_with_iff.
    exists (pre ++ "."). apply append_unit.
  - exists "jsx". split; [cbn; auto|]. apply ends_with_iff.
    exists (pre ++ "."). apply append_unit.
  - exists "ts". split; [cbn; auto|]. apply ends_with_iff.
    exists (pre ++ "."). apply append_unit.
  - exists "tsx". split; [cbn; auto 6|]. apply ends_with_iff.
    exists (pre ++ "."). apply append_unit.
Qed.

(** C3 (amended).  For every raw text and every host, the filtered list is
    made of entries of the split text, in their order.  The path filter
    retains every entry that ends in one of the four extensions .js, .jsx,
    .ts, .tsx and is not the reserved path scripts/pre-commit.js; it drops
    the reserved path, the empty entries and every entry that does not end
    in one of js, jsx, ts, tsx.  On a host other than 'win32', the listing of
    src/a.tsx and README.md, one per line, is filtered to the one path
    src/a.tsx; the run then constructs the lint engine and, if that
    succeeds, asks it about that list; it never asks it about another
    list. *)
Theorem path_filter_retains :
  (forall platform stdout,
      changed_files platform stdout
      = filter keep (split stdout (new_line platform))) /\
  (forall cf,
      has_dotted_extension cf = true -> cf <> reserved_path -> keep cf = true) /\
  (forall cf,
      keep cf = true ->
      cf <> reserved_path /\ cf <> EmptyString /\
      exists pre ext, In ext source_extensions /\ cf = pre ++ ext) /\
  (forall w stderr,
      platform w <> "win32" ->
      exec w git_cmd = mkExecOutcome None a_tsx_and_readme stderr ->
      changed_files (platform w) a_tsx_and_readme = ["src/a.tsx"] /\
      (exists t, fst (module_exports w) = EvExec git_cmd :: EvNewESLint :: t) /\
      (forall files, In (EvLintFiles files) (fst (module_exports w)) ->
                     files = ["src/a.tsx"]) /\
      (forall eslint, new_ESLint w = Ok eslint ->
                      In (EvLintFiles ["src/a.tsx"]) (fst (module_exports w)))).
Proof.
  split; [|split; [|split]].
  - reflexivity.
  - intros cf Hext Hne. rewrite keep_retained. unfold retained.
    rewrite (dotted_has_source_extension cf Hext).
    apply String.eqb_neq in Hne. now rewrite Hne.
  - intros cf Hk. split; [|split].
    + rewrite keep_retained in Hk. now apply retained_iff in Hk.
    + intros ->. discriminate Hk.
    + rewrite keep_retained in Hk. now apply retained_iff in Hk.
  - intros w stderr Hplat Hexec.
    assert (Hfiles : changed_files (platform w) a_tsx_and_readme = ["src/a.tsx"]).
    { destruct (new_line_cases (platform w)) as [[? _] | [_ Hnl]]; [contradiction|].
      now rewrite (changed_files_LF _ _ Hnl). }
    assert (Hst : staged w [EvExec git_cmd] ["src/a.tsx"]).
    { exists a_tsx_and_readme. split; [|split].
      - eexists. split; [apply (os_run_prints w _ _ stderr Hexec); discriminate|].
        reflexivity.
      - now rewrite Hfiles.
      - discriminate. }
    split; [exact Hfiles|].
    rewrite (module_exports_staged w _ _ Hst).
    destruct (lint_block_calls w ["src/a.tsx"]) as ([t Ht] & Hall & Hone).
    assert (Hfst : forall m : M unit, fst (async m) = fst m)
      by (intros [? [| |]]; reflexivity).
    rewrite Hfst. cbn [fst app]. split; [|split].
    + exists t. now rewrite Ht.
    + intros files [H|H]; [discriminate H | now apply Hall].
    + intros eslint H. right. exact (Hone eslint H).
Qed.

Lemma path_filter_retains_witness :
  changed_files "linux" a_tsx_and_readme = ["src/a.tsx"] /\
  In (EvLintFiles ["src/a.tsx"])
     (fst (module_exports
             (mkWorld "linux" (prints a_tsx_and_readme) (engine_reporting clean)))).
Proof.
  destruct (proj2 (proj2 (proj2 path_filter_retains))
              (mkWorld "linux" (prints a_tsx_and_readme) (engine_reporting clean))
              EmptyString) as (H1 & _ & _ & H2).
  - discriminate.
  - reflexivity.
  - split; [exact H1 | exact (H2 _ eq_refl)].
Defined.

(** C5.  When the resolver yields null (nothing is staged), the function
    resolves with 0, and the only event of the run is the subprocess call:
    the lint engine is not invoked. *)
Theorem nothing_staged_succeeds (w : World) (t : trace) :
  resolver_yields w t VNull ->
  module_exports w = (t, Fulfilled (VNum 0)) /\
  t = [EvExec git_cmd] /\
  no_lint_event (fst (module_exports w)).
Proof.
  intros H. rewrite (module_exports_null w t H).
  destruct H as (r & Hrun & _).
  apply os_run_fulfilled in Hrun as (-> & _). repeat split.
Qed.

Lemma nothing_staged_succeeds_witness :
  module_exports (mkWorld "linux" (prints EmptyString) (engine_reporting one_warning))
  = ([EvExec git_cmd], Fulfilled (VNum 0)).
Proof.
  apply (nothing_staged_succeeds
           (mkWorld "linux" (prints EmptyString) (engine_reporting one_warning))
           [EvExec git_cmd]).
  eexists. split; reflexivity.
Defined.

(** C6.  When the resolver yields text of which the path filter keeps
    nothing, the function resolves with 0 and the lint engine is not invoked.
    A listing of scripts/pre-commit.js alone is such a text, on every
    host. *)
Theorem nothing_to_lint_succeeds :
  (forall w t stdout,
      resolver_yields w t (VStr stdout) ->
      changed_files (platform w) stdout = [] ->
      module_exports w = (t, Fulfilled (VNum 0)) /\
      no_lint_event (fst (module_exports w))) /\
  (forall w stderr,
      exec w git_cmd = mkExecOutcome None only_the_hook stderr ->
      changed_files (platform w) only_the_hook = [] /\
      module_exports w = ([EvExec git_cmd], Fulfilled (VNum 0))).
Proof.
  assert (Hgen : forall w t stdout,
             resolver_yields w t (VStr stdout) ->
             changed_files (platform w) stdout = [] ->
             module_exports w = (t, Fulfilled (VNum 0)) /\ t = [EvExec git_cmd]).
  { intros w t stdout Hres Hnil.
    rewrite module_exports_handled, (handled_staged w t stdout Hres), Hnil,
      lint_changed_empty.
    cbn [fst snd async]. rewrite app_nil_r. split; [reflexivity|].
    destruct Hres as (r & Hrun & _). now apply os_run_fulfilled in Hrun. }
  split.
  - intros w t stdout Hres Hnil.
    destruct (Hgen w t stdout Hres Hnil) as [-> ->]. split; reflexivity.
  - intros w stderr Hexec.
    assert (Hnil : changed_files (platform w) only_the_hook = []).
    { unfold changed_files.
      destruct (new_line_cases (platform w)) as [[_ ->] | [_ ->]]; reflexivity. }
    split; [exact Hnil|].
    apply (Hgen w [EvExec git_cmd] only_the_hook); [|exact Hnil].
    eexists. split; [apply (os_run_prints w _ _ stderr Hexec); discriminate|].
    reflexivity.
Qed.

Lemma nothing_to_lint_succeeds_witness :
  module_exports (mkWorld "linux" (prints only_readme) (engine_reporting one_warning))
  = ([EvExec git_cmd], Fulfilled (VNum 0)).
Proof.
  apply (proj1 nothing_to_lint_succeeds
           (mkWorld "linux" (prints only_readme) (engine_reporting one_warning))
           [EvExec git_cmd] only_readme).
  - eexists. split; reflexivity.
  - reflexivity.
Defined.

(** C7.  A terminator at the end of the raw output changes nothing of the
    filtered list, on every host: the empty segment it adds is discarded.
    Where the terminator is the line feed, the listing of a.ts and b.js, one
    per line, splits into a.ts, b.js and an empty segment, and is filtered to
    a.ts and b.js. *)
Theorem trailing_terminator_discarded :
  (forall platform stdout,
      changed_files platform (stdout ++ new_line platform)
      = changed_files platform stdout) /\
  (forall platform,
      new_line platform = str_LF ->
      split a_ts_b_js (new_line platform) = ["a.ts"; "b.js"; EmptyString] /\
      changed_files platform a_ts_b_js = ["a.ts"; "b.js"]).
Proof.
  split.
  - intros platform stdout. unfold changed_files.
    now rewrite split_trailing, filter_keep_trailing.
  - intros platform Hnl. unfold changed_files. rewrite Hnl. split; reflexivity.
Qed.

Lemma trailing_terminator_discarded_witness :
  changed_files "darwin" a_ts_b_js = ["a.ts"; "b.js"].
Proof.
  apply (proj2 trailing_terminator_discarded "darwin"). reflexivity.
Defined.

(** C8.  When a call into the lint engine throws (the constructor,
    [lintFiles], [loadFormatter] or [format]), the function is rejected with
    126 (COMMAND_CANNOT_EXECUTE), and the last event before the rejection is
    the log of what was thrown; the events between the subprocess call and
    that log are calls into the engine. *)
Theorem engine_failure_rejects_126 (w : World) (t : trace)
    (files : list string) (e : jsval) :
  staged w t files ->
  engine_throws w files e ->
  exists calls,
    module_exports w =
    ((t ++ calls ++ [EvLog [VStr "Failed to run ESLint, error: "; e]])%list,
     Rejected COMMAND_CANNOT_EXECUTE) /\
    (forall ev, In ev calls -> is_lint_event ev = true).
Proof.
  intros Hst Hthrow.
  destruct (lint_block_throws w files e Hthrow) as (calls & Hblock & Hcalls).
  exists calls. split; [|exact Hcalls].
  now rewrite (module_exports_staged w t files Hst), Hblock.
Qed.

Lemma engine_failure_rejects_126_witness :
  exists calls,
    module_exports (mkWorld "linux" (prints a_ts_b_js) engine_broken) =
    (([EvExec git_cmd] ++ calls
      ++ [EvLog [VStr "Failed to run ESLint, error: ";
                 VError "No ESLint configuration found"]])%list,
     Rejected COMMAND_CANNOT_EXECUTE) /\
    (forall ev, In ev calls -> is_lint_event ev = true).
Proof.
  apply (engine_failure_rejects_126
           (mkWorld "linux" (prints a_ts_b_js) engine_broken)
           [EvExec git_cmd] ["a.ts"; "b.js"]
           (VError "No ESLint configuration found")).
  - exists a_ts_b_js. split; [|split].
    + eexists. split; reflexivity.
    + reflexivity.
    + discriminate.
  - right. eexists. split; [reflexivity|]. left. reflexivity.
Defined.

(** C9.  The terminator is a function of the host identifier alone: the two
    units carriage return, line feed exactly when the identifier is 'win32',
    the single line feed for every other identifier; and it is the separator
    the raw output is split on. *)
Theorem new_line_by_platform (platform : string) :
  (new_line platform = str_CRLF <-> platform = "win32") /\
  (new_line platform = str_LF <-> platform <> "win32") /\
  String.length str_CRLF = 2 /\
  String.length str_LF = 1 /\
  (forall stdout,
      changed_files platform stdout
      = filter keep (split stdout (new_line platform))).
Proof.
  assert (Hrest : String.length str_CRLF = 2 /\ String.length str_LF = 1 /\
                  forall stdout,
                    changed_files platform stdout
                    = filter keep (split stdout (new_line platform)))
    by (repeat split).
  destruct (new_line_cases platform) as [[Hp Hnl] | [Hp Hnl]]; rewrite Hnl in *;
    (split; [|split; [|exact Hrest]]); split; intros H;
    try assumption; try reflexivity; try discriminate; contradiction.
Qed.

(** C10.  Every value [os_run] resolves with has [success] true and a
    [stdout] that is null or a string that is not empty, so the condition of
    one of the three [if] statements of the function holds for it.  In every
    run the statements before the last one end in a [return] or a [throw]:
    the final [throw] of GENERAL_ERROR is never reached, and the promise of
    the function is that of those statements. *)
Theorem fallback_unreachable (w : World) :
  (forall cmd t response,
      os_run w cmd = (t, Fulfilled response) ->
      get response "success" = VBool true /\
      (get response "stdout" = VNull \/
       exists s, get response "stdout" = VStr s /\ s <> EmptyString) /\
      (truthy (get response "error") = true \/
       truthy (get response "success")
         && strict_eq (get response "stdout") VNull = true \/
       truthy (get response "success")
         && truthy (get response "stdout") = true)) /\
  completes_normally (handled w) = false /\
  module_exports w = async (handled w).
Proof.
  split; [|split; [apply handled_abrupt | apply module_exports_handled]].
  intros cmd t r H.
  apply os_run_fulfilled in H as (_ & _ & [[Hne ->] | (_ & _ & ->)]).
  - cbn [get String.eqb Ascii.eqb Bool.eqb andb truthy strict_eq].
    split; [reflexivity|]. split; [right; eauto|].
    right. right. apply String.eqb_neq in Hne. now rewrite Hne.
  - cbn. auto.
Qed.

Lemma fallback_unreachable_witness :
  get [ ("success", VBool true); ("stdout", VStr a_ts_b_js) ] "success" = VBool true /\
  completes_normally
    (handled (mkWorld "linux" (prints a_ts_b_js) (engine_reporting one_warning)))
  = false.
Proof.
  destruct (fallback_unreachable
              (mkWorld "linux" (prints a_ts_b_js) (engine_reporting one_warning)))
    as (Hres & Habrupt & _).
  split; [|exact Habrupt].
  apply (Hres git_cmd [EvExec git_cmd]
           [ ("success", VBool true); ("stdout", VStr a_ts_b_js) ]).
  reflexivity.
Defined.

(* ------------------------------------------------------------------ *)
(** ** Further properties of the script *)

Import Listing.

(** *** Strings *)

Section Strings.

Lemma append_assoc (a b c : string) : (a ++ b) ++ c = a ++ (b ++ c).
Proof. induction a as [|x a IH]; cbn; [reflexivity | now rewrite IH]. Qed.

Lemma append_nil_r (a : string) : a ++ EmptyString = a.
Proof. induction a as [|x a IH]; cbn; [reflexivity | now rewrite IH]. Qed.

Lemma append_last_inj (a b : string) (c d : ascii) :
  a ++ String c EmptyString = b ++ String d EmptyString -> c = d.
Proof.
  revert b. induction a as [|x a IH]; intros [|y b] H; cbn in H.
  - now injection H.
  - injection H as _ H. destruct b; discriminate.
  - injection H as _ H. destruct a; discriminate.
  - injection H as _ H. eauto.
Qed.

Lemma has_unit_append (c : ascii) (a b : string) :
  has_unit c (a ++ b) = has_unit c a || has_unit c b.
Proof.
  induction a as [|x a IH]; cbn; [reflexivity|]. now rewrite IH, orb_assoc.
Qed.

Lemma occurs_in_middle (a x b : string) : occurs_in x (a ++ x ++ b).
Proof. now exists a, b. Qed.

Lemma occurs_in_append (x s t : string) : occurs_in x s -> occurs_in x (s ++ t).
Proof.
  intros (a & b & ->). exists a, (b ++ t). now rewrite !append_assoc.
Qed.

Lemma concat_cons (sep x : string) (l : list string) :
  l <> [] -> String.concat sep (x :: l) = x ++ sep ++ String.concat sep l.
Proof. destruct l; [congruence | reflexivity]. Qed.

Lemma in_concat_occurs (sep x : string) (l : list string) :
  In x l -> occurs_in x (String.concat sep l).
Proof.
  induction l as [|y l IH]; [contradiction|].
  intros [<- | Hin].
  - destruct l as [|z l].
    + exists EmptyString, EmptyString. cbn. now rewrite append_nil_r.
    + exists EmptyString, (sep ++ String.concat sep (z :: l)). reflexivity.
  - destruct (IH Hin) as (a & b & Hab).
    destruct l as [|z l]; [contradiction|].
    exists (y ++ sep ++ a), b.
    change (String.concat sep (y :: z :: l))
      with (y ++ sep ++ String.concat sep (z :: l)).
    rewrite Hab. now rewrite !append_assoc.
Qed.

End Strings.

(** *** Splitting, joined back and composed *)

Section SplitMore.

Lemma split_scan_nonempty (sep : string) (skip : nat) (seg s : string) :
  split_scan sep skip seg s <> [].
Proof.
  revert skip seg. induction s as [|c s IH]; intros skip seg; cbn [split_scan].
  - discriminate.
  - destruct skip; [|apply IH].
    destruct (String.prefix sep (String c s)); [discriminate | apply IH].
Qed.

Lemma join_split_scan_LF (s seg : string) :
  String.concat str_LF (split_scan str_LF 0 seg s) = seg ++ s.
Proof.
  revert seg. induction s as [|c s IH]; intros seg.
  - cbn. now rewrite append_nil_r.
  - cbn [split_scan String.prefix str_LF String.length Nat.sub].
    rewrite prefix_empty.
    destruct (ascii_dec LF c) as [<-|].
    + rewrite concat_cons by apply split_scan_nonempty. now rewrite IH.
    + rewrite IH. now rewrite append_assoc.
Qed.

Lemma join_split_scan_CRLF (s : string) :
  (forall seg, String.concat str_CRLF (split_scan str_CRLF 0 seg s) = seg ++ s) /\
  (forall seg c, String.concat str_CRLF (split_scan str_CRLF 0 seg (String c s))
                 = seg ++ String c s).
Proof.
  induction s as [|d s [IH0 IH1]].
  - split; [intros seg; cbn; now rewrite append_nil_r|]. intros seg c.
    cbn [split_scan String.prefix str_CRLF String.length Nat.sub].
    destruct (ascii_dec CR c); cbn; now rewrite ?append_assoc.
  - split; [exact (fun seg => IH1 seg d)|]. intros seg c.
    cbn [split_scan String.prefix str_CRLF String.length Nat.sub].
    rewrite prefix_empty.
    destruct (ascii_dec CR c) as [<-|]; [destruct (ascii_dec LF d) as [<-|]|].
    + cbn [split_scan]. rewrite concat_cons by apply split_scan_nonempty.
      now rewrite IH0.
    + transitivity ((seg ++ String CR EmptyString) ++ String d s);
        [apply (IH1 _ d) | now rewrite append_assoc].
    + transitivity ((seg ++ String c EmptyString) ++ String d s);
        [apply (IH1 _ d) | now rewrite append_assoc].
Qed.

Lemma join_split (platform s : string) :
  String.concat (new_line platform) (split s (new_line platform)) = s.
Proof.
  unfold new_line. destruct (strict_eq _ _).
  - apply (proj1 (join_split_scan_CRLF s) EmptyString).
  - apply (join_split_scan_LF s EmptyString).
Qed.

Lemma split_scan_LF_app (a b seg : string) :
  split_scan str_LF 0 seg (a ++ str_LF ++ b)
  = (split_scan str_LF 0 seg a ++ split_scan str_LF 0 EmptyString b)%list.
Proof.
  revert seg. induction a as [|c a IH]; intros seg.
  - cbn. destruct (ascii_dec LF LF); [|congruence]. now rewrite prefix_empty.
  - cbn [append split_scan String.prefix str_LF String.length Nat.sub].
    rewrite !prefix_empty.
    destruct (ascii_dec LF c); rewrite IH; reflexivity.
Qed.

Lemma split_scan_CRLF_app (b a : string) :
  (forall seg, split_scan str_CRLF 0 seg (a ++ str_CRLF ++ b)
               = (split_scan str_CRLF 0 seg a
                  ++ split_scan str_CRLF 0 EmptyString b)%list) /\
  (forall seg c, split_scan str_CRLF 0 seg (String c a ++ str_CRLF ++ b)
               = (split_scan str_CRLF 0 seg (String c a)
                  ++ split_scan str_CRLF 0 EmptyString b)%list).
Proof.
  induction a as [|d a [IH0 IH1]].
  - assert (H0 : forall seg, split_scan str_CRLF 0 seg (str_CRLF ++ b)
               = (seg :: split_scan str_CRLF 0 EmptyString b)).
    { intros seg. cbn. destruct (ascii_dec CR CR); [|congruence].
      destruct (ascii_dec LF LF); [|congruence]. now rewrite prefix_empty. }
    split; [exact H0|]. intros seg c.
    cbn [append split_scan String.prefix str_CRLF String.length Nat.sub].
    destruct (ascii_dec CR c) as [<-|].
    + destruct (ascii_dec LF CR); [discriminate|]. apply (H0 _).
    + apply (H0 _).
  - split; [exact (fun seg => IH1 seg d)|]. intros seg c.
    cbn [append split_scan String.prefix str_CRLF String.length Nat.sub].
    rewrite !prefix_empty.
    destruct (ascii_dec CR c); [destruct (ascii_dec LF d)|].
    + cbn [app split_scan]. f_equal. apply IH0.
    + apply (IH1 _ d).
    + apply (IH1 _ d).
Qed.

Lemma split_app (platform a b : string) :
  split (a ++ new_line platform ++ b) (new_line platform)
  = (split a (new_line platform) ++ split b (new_line platform))%list.
Proof.
  unfold new_line. destruct (strict_eq _ _).
  - apply split_scan_CRLF_app.
  - apply split_scan_LF_app.
Qed.

(** A text without the first unit of the terminator is one segment. *)
Lemma split_scan_CRLF_no_CR (s seg : string) :
  has_unit CR s = false ->
  split_scan str_CRLF 0 seg s = [seg ++ s].
Proof.
  revert seg. induction s as [|c s IH]; intros seg H.
  - cbn. now rewrite append_nil_r.
  - cbn [has_unit] in H. apply orb_false_iff in H as [Hc Hs].
    cbn [split_scan String.prefix str_CRLF].
    destruct (ascii_dec CR c) as [<-|].
    + now rewrite Ascii.eqb_refl in Hc.
    + rewrite (IH _ Hs). now rewrite append_assoc.
Qed.

Lemma split_scan_LF_no_LF (s seg : string) :
  has_unit LF s = false ->
  split_scan str_LF 0 seg s = [seg ++ s].
Proof.
  revert seg. induction s as [|c s IH]; intros seg H.
  - cbn. now rewrite append_nil_r.
  - cbn [has_unit] in H. apply orb_false_iff in H as [Hc Hs].
    cbn [split_scan String.prefix str_LF].
    destruct (ascii_dec LF c) as [<-|].
    + now rewrite Ascii.eqb_refl in Hc.
    + rewrite (IH _ Hs). now rewrite append_assoc.
Qed.

Lemma split_plain (platform s : string) :
  plain s -> split s (new_line platform) = [s].
Proof.
  intros [Hcr Hlf]. unfold new_line, split.
  destruct (strict_eq _ _); cbn [str_CRLF str_LF].
  - apply (split_scan_CRLF_no_CR s EmptyString Hcr).
  - apply (split_scan_LF_no_LF s EmptyString Hlf).
Qed.

(** A kept entry ends in the unit s or the unit x. *)
Lemma keep_last_unit (cf : string) (c : ascii) :
  keep (cf ++ String c EmptyString) = true -> c = "s"%char \/ c = "x"%char.
Proof.
  rewrite keep_retained. intros H.
  apply retained_iff in H as [(pre & ext & Hin & Heq) _].
  cbn in Hin.
  destruct Hin as [<-|[<-|[<-|[<-|[]]]]].
  - left. apply (append_last_inj cf (pre ++ "j")). now rewrite append_assoc.
  - right. apply (append_last_inj cf (pre ++ "js")). now rewrite append_assoc.
  - left. apply (append_last_inj cf (pre ++ "t")). now rewrite append_assoc.
  - right. apply (append_last_inj cf (pre ++ "ts")). now rewrite append_assoc.
Qed.

Lemma keep_ends_LF (s : string) : keep (s ++ str_LF) = false.
Proof.
  destruct (keep (s ++ str_LF)) eqn:E; [|reflexivity].
  apply keep_last_unit in E as [E|E]; discriminate E.
Qed.

Lemma keep_ends_CR (s : string) : keep (s ++ String CR EmptyString) = false.
Proof.
  destruct (keep (s ++ String CR EmptyString)) eqn:E; [|reflexivity].
  apply keep_last_unit in E as [E|E]; discriminate E.
Qed.

Lemma listing_ends (terminator : string) (paths : list string) :
  paths <> [] -> exists s, listing terminator paths = s ++ terminator.
Proof.
  induction paths as [|p rest IH]; [congruence|]. intros _.
  destruct rest as [|q rest].
  - exists p. cbn. now rewrite append_nil_r.
  - destruct IH as [s Hs]; [discriminate|].
    exists (p ++ terminator ++ s). cbn [listing] in *. rewrite Hs.
    now rewrite !append_assoc.
Qed.

Lemma has_unit_listing (c : ascii) (terminator : string) (paths : list string) :
  has_unit c terminator = false ->
  Forall (fun p => has_unit c p = false) paths ->
  has_unit c (listing terminator paths) = false.
Proof.
  intros Ht. induction 1 as [|p rest Hp _ IH]; [reflexivity|].
  cbn [listing]. now rewrite !has_unit_append, Hp, Ht, IH.
Qed.

Lemma listing_not_empty (terminator : string) (paths : list string) :
  terminator <> EmptyString -> paths <> [] ->
  listing terminator paths <> EmptyString.
Proof.
  intros Ht Hp. destruct (listing_ends terminator paths Hp) as [s ->].
  destruct s; [assumption | discriminate].
Qed.

End SplitMore.

(** *** Runs, by what the resolver and the engine did *)

Section RunsMore.

Variable w : World.

Lemma os_run_trace (cmd : string) :
  exists rest, fst (os_run w cmd) = EvExec cmd :: rest /\
               forall ev, In ev rest -> is_log ev = true.
Proof.
  unfold os_run.
  destruct (exec_error (exec w cmd)).
  - destruct (truthy _); cbn; eexists; (split; [reflexivity|]);
      intros ev H; cbn in H; decompose [or] H; subst; try reflexivity; contradiction.
  - destruct (truthy _); [|destruct (truthy _)]; cbn; eexists;
      (split; [reflexivity|]);
      intros ev H; cbn in H; decompose [or] H; subst; try reflexivity; contradiction.
Qed.

Lemma os_run_trace_shape (cmd : string) (ev : event) :
  In ev (fst (os_run w cmd)) -> ev = EvExec cmd \/ is_log ev = true.
Proof.
  destruct (os_run_trace cmd) as (rest & -> & Hrest).
  intros [<- | H]; auto.
Qed.

Lemma resolver_cases :
  (exists t, resolver_yields w t VNull) \/
  (exists t stdout, resolver_yields w t (VStr stdout) /\ stdout <> EmptyString) \/
  (exists t e, os_run w git_cmd = (t, Rejected e)).
Proof.
  destruct (os_run w git_cmd) as [t [r|e]] eqn:Hrun; [|eauto 6].
  destruct (os_run_fulfilled w _ _ _ Hrun) as (_ & _ & [[Hne ->] | (_ & _ & ->)]).
  - right. left. exists t, (exec_stdout (exec w git_cmd)). split; [|assumption].
    eexists. split; [eassumption | reflexivity].
  - left. exists t. eexists. split; [eassumption | reflexivity].
Qed.

Lemma resolver_trace (t : trace) (v : jsval) :
  resolver_yields w t v -> t = [EvExec git_cmd].
Proof. intros (r & H & _). now apply os_run_fulfilled in H. Qed.

Lemma resolver_yields_text :
  exec_error (exec w git_cmd) = None ->
  exec_stdout (exec w git_cmd) <> EmptyString ->
  resolver_yields w [EvExec git_cmd] (VStr (exec_stdout (exec w git_cmd))).
Proof.
  intros He Ho.
  destruct (exec w git_cmd) as [err out errs] eqn:E. cbn in *. subst err.
  eexists. split; [apply (os_run_prints w git_cmd out errs E Ho) | reflexivity].
Qed.

Lemma engine_cases (files : list string) :
  (exists results pretty, engine_reports w files results pretty) \/
  (exists e, engine_throws w files e).
Proof.
  unfold engine_reports, engine_throws.
  destruct (new_ESLint w) as [eslint|e] eqn:H1; [|eauto].
  destruct (lintFiles eslint files) as [results|e] eqn:H2; [|eauto 8].
  destruct (loadFormatter eslint "stylish") as [formatter|e] eqn:H3; [|eauto 10].
  destruct (format formatter results) as [pretty|e] eqn:H4; [left|right].
  - exists results, pretty, eslint, formatter. auto.
  - exists e. right. exists eslint. split; [reflexivity|]. right.
    exists results. split; [assumption|]. right. exists formatter. auto.
Qed.

Lemma module_exports_text (t : trace) (stdout : string) :
  resolver_yields w t (VStr stdout) ->
  module_exports w =
  async ((t ++ fst (lint_changed w (changed_files (platform w) stdout)))%list,
         snd (lint_changed w (changed_files (platform w) stdout))).
Proof.
  intros H. now rewrite module_exports_handled, (handled_staged w t stdout H).
Qed.

Lemma module_exports_rejected (t : trace) (e : jsval) :
  os_run w git_cmd = (t, Rejected e) -> module_exports w = (t, Rejected e).
Proof.
  intros H. now rewrite module_exports_handled, (handled_rejected w t e H).
Qed.

Lemma module_exports_nothing_kept (t : trace) (stdout : string) :
  resolver_yields w t (VStr stdout) ->
  changed_files (platform w) stdout = [] ->
  module_exports w = (t, Fulfilled (VNum 0)).
Proof.
  intros H Hnil. rewrite (module_exports_text t stdout H), Hnil.
  cbn. now rewrite app_nil_r.
Qed.

Lemma staged_of_text (t : trace) (stdout : string) :
  resolver_yields w t (VStr stdout) ->
  changed_files (platform w) stdout <> [] ->
  staged w t (changed_files (platform w) stdout).
Proof. intros H Hne. exists stdout. auto. Qed.

Lemma fst_async (m : M unit) : fst (async m) = fst m.
Proof. destruct m as [t [| |]]; reflexivity. Qed.

Lemma lint_block_outcome (files : list string) :
  snd (lint_block w files) = Return (VNum 0) \/
  snd (lint_block w files) = Throw COMMAND_CANNOT_EXECUTE.
Proof.
  destruct (engine_cases files) as [(results & pretty & H) | (e & H)].
  - rewrite (lint_block_reports w files results pretty H).
    destruct (counts_condition w results) as [[|]|]; auto.
  - destruct (lint_block_throws w files e H) as (t & -> & _). auto.
Qed.

Lemma lint_changed_outcome (files : list string) :
  snd (lint_changed w files) = Return (VNum 0) \/
  snd (lint_changed w files) = Throw COMMAND_CANNOT_EXECUTE.
Proof.
  unfold lint_changed. destruct (negb _); [apply lint_block_outcome | now left].
Qed.

(** An array, which is what the ESLint class resolves with, does not pass
    the condition of lines 95 to 100. *)
Lemma array_does_not_pass (per_file : list jsval) :
  ~ passes w (VArray per_file).
Proof.
  intros (eslint & _ & H). apply no_findings_true in H.
  rewrite no_findings_array in H. discriminate.
Qed.

(** The verdict of a run that reached the lint stage. *)
Lemma staged_verdict (t : trace) (files : list string) :
  staged w t files ->
  (snd (module_exports w) = Fulfilled (VNum 0) /\
   exists results pretty,
     engine_reports w files results pretty /\ passes w results) \/
  (snd (module_exports w) = Rejected COMMAND_CANNOT_EXECUTE /\
   ((exists e, engine_throws w files e) \/
    exists results pretty,
      engine_reports w files results pretty /\ ~ passes w results)).
Proof.
  intros Hst. rewrite (module_exports_staged w t files Hst).
  destruct (engine_cases files) as [(results & pretty & H) | (e & H)].
  - rewrite (lint_block_reports w files results pretty H).
    destruct (counts_condition w results) as [[|]|] eqn:E; cbn.
    + left. split; [reflexivity|]. exists results, pretty.
      split; [assumption | now apply counts_condition_true].
    + right. split; [reflexivity|]. right. exists results, pretty.
      split; [assumption|]. intros Hp. apply counts_condition_true in Hp. congruence.
    + right. split; [reflexivity|]. right. exists results, pretty.
      split; [assumption|]. intros Hp. apply counts_condition_true in Hp. congruence.
  - destruct (lint_block_throws w files e H) as (calls & -> & _). cbn. eauto 6.
Qed.



End RunsMore.

Lemma lint_changed_engine (w w' : World) (files : list string) :
  new_ESLint w = new_ESLint w' -> lint_changed w files = lint_changed w' files.
Proof.
  intros H. unfold lint_changed, lint_block, lint_try. now rewrite H.
Qed.

(** *** The resolver *)

(** X1.  [os_run] rejects exactly when the command reported an error, or
    printed nothing on its output and something on its error stream.  The
    rejection is the object [{error, stderr}]: [error] is the command's
    [Error], or the string UNKNOWN_ERROR when there was none; [stderr] is the
    captured error stream, or null when it is empty.  A fulfilment is
    [{success: true, stdout}], [stdout] null when the output is empty. *)
Theorem os_run_classification (w : World) (cmd : string) :
  ((exists e, snd (os_run w cmd) = Rejected e) <->
   exec_error (exec w cmd) <> None \/
   (exec_stdout (exec w cmd) = EmptyString /\
    exec_stderr (exec w cmd) <> EmptyString)) /\
  (forall e, snd (os_run w cmd) = Rejected e ->
     e = VObject
           [ ("error", match exec_error (exec w cmd) with
                       | Some message => VError message
                       | None => VStr "UNKNOWN_ERROR"
                       end);
             ("stderr", if String.eqb (exec_stderr (exec w cmd)) EmptyString
                        then VNull else VStr (exec_stderr (exec w cmd))) ]) /\
  (forall r, snd (os_run w cmd) = Fulfilled r ->
     r = [ ("success", VBool true);
           ("stdout", if String.eqb (exec_stdout (exec w cmd)) EmptyString
                      then VNull else VStr (exec_stdout (exec w cmd))) ]).
Proof.
  unfold os_run, truthy.
  destruct (exec_error (exec w cmd)) as [message|];
    destruct (String.eqb_spec (exec_stdout (exec w cmd)) EmptyString) as [Eo|Eo];
    destruct (String.eqb_spec (exec_stderr (exec w cmd)) EmptyString) as [Ee|Ee];
    cbn [negb fst snd set String.eqb Ascii.eqb Bool.eqb];
    (split; [split|split]);
    try (intros [e [=]]); try (intros e [= <-]); try (intros r [= <-]);
    try reflexivity; try (now left); try (now right); try (eexists; reflexivity);
    try (intros [H|[H1 H2]]; congruence).
Qed.

Lemma os_run_classification_witness :
  exists e,
    snd (os_run (mkWorld "linux" (chatty EmptyString "fatal: not a git repository")
                         (engine_reporting clean)) git_cmd)
    = Rejected e.
Proof.
  apply (proj2 (proj1 (os_run_classification
                         (mkWorld "linux"
                            (chatty EmptyString "fatal: not a git repository")
                            (engine_reporting clean)) git_cmd))).
  right. split; [reflexivity | discriminate].
Defined.

(** X2.  [os_run] runs the command once, first.  When it fulfils it logs
    nothing.  When it rejects, everything after the command is a log, and the
    last message names the command, holds the message of the command's
    error if there is one, and ends with the captured error stream when that
    is not empty. *)
Theorem os_run_logs_failures (w : World) (cmd : string) :
  (forall r, snd (os_run w cmd) = Fulfilled r ->
     fst (os_run w cmd) = [EvExec cmd]) /\
  (forall e, snd (os_run w cmd) = Rejected e ->
     exists before msg,
       fst (os_run w cmd) = (EvExec cmd :: before ++ [EvLog [VStr msg]])%list /\
       (forall ev, In ev before -> is_log ev = true) /\
       occurs_in cmd msg /\
       (forall message, exec_error (exec w cmd) = Some message ->
                        occurs_in message msg) /\
       (exec_stderr (exec w cmd) <> EmptyString ->
        exists a, msg = a ++ " with stderr: " ++ exec_stderr (exec w cmd))).
Proof.
  unfold os_run, truthy.
  destruct (exec_error (exec w cmd)) as [message|].
  - destruct (String.eqb_spec (exec_stderr (exec w cmd)) EmptyString) as [Ee|Ee];
      cbn [negb fst snd]; (split; [intros r [=]|intros e _]);
      eexists [_], _; (split; [reflexivity|]);
      (split; [intros ev [<-|[]]; reflexivity|]).
    + split; [apply occurs_in_middle|].
      split; [|congruence].
      intros m [= <-].
      exists ("failed to execute cmd: " ++ cmd ++ ", error: "), EmptyString.
      rewrite append_nil_r, !append_assoc. reflexivity.
    + split; [apply occurs_in_append, occurs_in_middle|].
      split; [|intros _; eexists; reflexivity].
      intros m [= <-]. apply occurs_in_append.
      exists ("failed to execute cmd: " ++ cmd ++ ", error: "), EmptyString.
      rewrite append_nil_r, !append_assoc. reflexivity.
  - destruct (String.eqb_spec (exec_stdout (exec w cmd)) EmptyString) as [Eo|Eo];
      cbn [negb fst snd].
    + destruct (String.eqb_spec (exec_stderr (exec w cmd)) EmptyString) as [Ee|Ee];
        cbn [negb fst snd]; (split; [intros r [=]; reflexivity|intros e [=]]).
      exists [], ("unknown error when executing cmd: " ++ cmd
                  ++ " with stderr: " ++ exec_stderr (exec w cmd)).
      split; [now rewrite append_assoc|].
      split; [intros ev []|].
      split; [apply occurs_in_middle|].
      split; [discriminate|]. intros _.
      exists ("unknown error when executing cmd: " ++ cmd).
      now rewrite append_assoc.
    + split; [reflexivity | intros e [=]].
Qed.

Lemma os_run_logs_failures_witness :
  exists before msg,
    fst (os_run (mkWorld "linux"
                   (fun _ => mkExecOutcome (Some "spawn git ENOENT") EmptyString
                                           "fatal: not a git repository")
                   (engine_reporting clean)) git_cmd)
    = (EvExec git_cmd :: before ++ [EvLog [VStr msg]])%list /\
    (forall ev, In ev before -> is_log ev = true) /\
    occurs_in git_cmd msg /\
    occurs_in "spawn git ENOENT" msg /\
    exists a, msg = a ++ " with stderr: " ++ "fatal: not a git repository".
Proof.
  destruct (proj2 (os_run_logs_failures
                     (mkWorld "linux"
                        (fun _ => mkExecOutcome (Some "spawn git ENOENT") EmptyString
                                                "fatal: not a git repository")
                        (engine_reporting clean)) git_cmd)
              (VObject [ ("error", VError "spawn git ENOENT");
                         ("stderr", VStr "fatal: not a git repository") ])
              eq_refl)
    as (before & msg & Htrace & Hlogs & Hcmd & Herr & Hstderr).
  exists before, msg. split; [exact Htrace|]. split; [exact Hlogs|].
  split; [exact Hcmd|]. split.
  - apply Herr. reflexivity.
  - apply Hstderr. discriminate.
Defined.

(** X3.  A value [os_run] fulfils with has no [error] field, so the first
    [if] of the exported function (lines 58 to 64) falls through on it: the
    mapping of a resolver error to the two codes is never taken. *)
Theorem resolver_error_branch_dead (w : World) (cmd : string) (t : trace)
    (response : object) :
  os_run w cmd = (t, Fulfilled response) ->
  get response "error" = VUndefined /\
  if_resolver_error response = ret tt.
Proof.
  intros H.
  apply os_run_fulfilled in H as (_ & _ & [[_ ->] | (_ & _ & ->)]);
    split; reflexivity.
Qed.

Lemma resolver_error_branch_dead_witness :
  if_resolver_error [ ("success", VBool true); ("stdout", VStr a_ts_b_js) ] = ret tt.
Proof.
  apply (resolver_error_branch_dead
           (mkWorld "linux" (prints a_ts_b_js) (engine_reporting clean))
           git_cmd [EvExec git_cmd]).
  reflexivity.
Defined.

(** *** The exported function *)

(** X4.  When the command reports no error and prints something, what it
    wrote on its error stream has no effect: two runs that agree on the
    host, the engine and the output are the same run, events included. *)
Theorem stderr_masked_by_stdout (w w' : World) :
  platform w' = platform w ->
  new_ESLint w' = new_ESLint w ->
  exec_error (exec w git_cmd) = None ->
  exec_error (exec w' git_cmd) = None ->
  exec_stdout (exec w git_cmd) <> EmptyString ->
  exec_stdout (exec w' git_cmd) = exec_stdout (exec w git_cmd) ->
  module_exports w' = module_exports w.
Proof.
  intros Hp He H1 H2 Hne Ho.
  rewrite (module_exports_text w _ _ (resolver_yields_text w H1 Hne)).
  rewrite <- Ho in Hne.
  rewrite (module_exports_text w' _ _ (resolver_yields_text w' H2 Hne)).
  rewrite Ho, Hp. now rewrite (lint_changed_engine w' w _ He).
Qed.

Lemma stderr_masked_by_stdout_witness :
  module_exports (mkWorld "linux" (chatty a_ts_b_js "warning: in the working copy")
                          (engine_reporting clean))
  = module_exports (mkWorld "linux" (prints a_ts_b_js) (engine_reporting clean)).
Proof.
  apply (stderr_masked_by_stdout
           (mkWorld "linux" (prints a_ts_b_js) (engine_reporting clean))
           (mkWorld "linux" (chatty a_ts_b_js "warning: in the working copy")
                    (engine_reporting clean)));
    try reflexivity.
  discriminate.
Defined.

(** X5.  The promise of the exported function settles in one of three ways:
    fulfilled with 0, rejected with 126, or rejected with the object
    [os_run] rejected with.  It is never rejected with 1 (GENERAL_ERROR) and
    never fulfilled with anything but 0. *)
Theorem entry_point_outcomes (w : World) :
  (snd (module_exports w) = Fulfilled (VNum 0) \/
   snd (module_exports w) = Rejected COMMAND_CANNOT_EXECUTE \/
   exists t error stderr,
     os_run w git_cmd
     = (t, Rejected (VObject [ ("error", error); ("stderr", stderr) ])) /\
     module_exports w
     = (t, Rejected (VObject [ ("error", error); ("stderr", stderr) ]))) /\
  snd (module_exports w) <> Rejected GENERAL_ERROR /\
  (forall v, snd (module_exports w) = Fulfilled v -> v = VNum 0).
Proof.
  destruct (resolver_cases w) as [[t H] | [(t & stdout & H & _) | (t & e & H)]].
  - rewrite (module_exports_null w t H). cbn.
    repeat split; [auto | discriminate | now intros v [= <-]].
  - rewrite (module_exports_text w t stdout H).
    destruct (lint_changed_outcome w (changed_files (platform w) stdout)) as [-> | ->];
      cbn; (repeat split; [auto | discriminate | intros v [=]; auto]).
  - rewrite (module_exports_rejected w t e H).
    destruct (os_run_rejected w _ _ _ H) as (error & stderr & -> & _). cbn.
    repeat split; [| discriminate | intros v [=]].
    right. right. exists t, error, stderr. auto.
Qed.

Lemma entry_point_outcomes_witness :
  snd (module_exports (mkWorld "linux" (prints a_ts_b_js) (engine_reporting one_warning)))
  <> Rejected GENERAL_ERROR /\
  snd (module_exports (mkWorld "linux" (chatty EmptyString "fatal: not a git repository")
                               (engine_reporting clean)))
  <> Rejected GENERAL_ERROR.
Proof.
  split.
  - apply (entry_point_outcomes
             (mkWorld "linux" (prints a_ts_b_js) (engine_reporting one_warning))).
  - apply (entry_point_outcomes
             (mkWorld "linux" (chatty EmptyString "fatal: not a git repository")
                      (engine_reporting clean))).
Defined.

(** X6.  The run succeeds (fulfils with 0) exactly in three cases: the
    resolver yields null; it yields text of which the path filter keeps
    nothing; or the filter keeps some paths, the engine reports on them a
    value that the formatter renders, and the condition of lines 95 to 100
    holds of that value: it is not null or undefined, its fields errorCount,
    warningCount and fixableWarningCount are the number 0, and its field
    fixableErrorCount is equal to 0 under [==].  No array is such a value:
    with an engine that resolves [lintFiles] with an array, as the ESLint
    class does, only the first two cases are left. *)
Theorem succeeds_iff (w : World) :
  (snd (module_exports w) = Fulfilled (VNum 0) <->
   (exists t, resolver_yields w t VNull) \/
   (exists t stdout,
      resolver_yields w t (VStr stdout) /\
      changed_files (platform w) stdout = []) \/
   (exists t files results pretty,
      staged w t files /\
      engine_reports w files results pretty /\
      passes w results)) /\
  (forall per_file, ~ passes w (VArray per_file)).
Proof.
  split; [split | apply array_does_not_pass].
  - intros Hok.
    destruct (resolver_cases w) as [[t H] | [(t & stdout & H & _) | (t & e & H)]].
    + eauto.
    + destruct (changed_files (platform w) stdout) as [|f fs] eqn:E; [eauto 6|].
      assert (Hst : staged w t (f :: fs)).
      { rewrite <- E. apply staged_of_text; [assumption | rewrite E; discriminate]. }
      destruct (staged_verdict w t _ Hst)
        as [(_ & results & pretty & Hrep & Hno) | (Hrej & _)].
      * right. right. exists t, (f :: fs), results, pretty. auto.
      * rewrite Hrej in Hok. discriminate.
    + rewrite (module_exports_rejected w t e H) in Hok. discriminate.
  - intros [[t H] | [(t & stdout & H & Hnil)
                    | (t & files & results & pretty & Hst & Hrep & Hz)]].
    + now rewrite (module_exports_null w t H).
    + now rewrite (module_exports_nothing_kept w t stdout H Hnil).
    + rewrite (module_exports_staged w t files Hst),
        (lint_block_reports w files results pretty Hrep).
      apply counts_condition_true in Hz. now rewrite Hz.
Qed.

Lemma succeeds_iff_witness :
  snd (module_exports (mkWorld "linux" (prints a_ts_b_js) (engine_reporting clean)))
  = Fulfilled (VNum 0) /\
  ~ passes (mkWorld "linux" (prints a_ts_b_js) eslint_class_clean)
      (VArray [file_result "a.ts" [] clean; file_result "b.js" [] clean]).
Proof.
  split.
  - apply (proj2 (proj1 (succeeds_iff
                           (mkWorld "linux" (prints a_ts_b_js)
                                    (engine_reporting clean))))).
    right. right.
    exists [EvExec git_cmd], ["a.ts"; "b.js"], (aggregate_value clean), "report".
    split; [|split].
    + exists a_ts_b_js. split; [|split].
      * eexists. split; reflexivity.
      * reflexivity.
      * discriminate.
    + eexists. eexists. repeat split.
    + eexists. split; [reflexivity|]. repeat split.
  - apply (proj2 (succeeds_iff (mkWorld "linux" (prints a_ts_b_js) eslint_class_clean))).
Defined.

(** X7.  The run is rejected with 126 exactly when the path filter keeps
    some paths and then either a call into the engine throws, or the engine
    reports a value of which the condition of lines 95 to 100 does not hold:
    an aggregate with a count that is not zero, and also every array, which
    is what the ESLint class resolves with, whatever the counts of its
    files. *)
Theorem rejects_126_iff (w : World) :
  (snd (module_exports w) = Rejected COMMAND_CANNOT_EXECUTE <->
   exists t files,
     staged w t files /\
     ((exists e, engine_throws w files e) \/
      (exists results pretty,
         engine_reports w files results pretty /\ ~ passes w results))) /\
  (forall counts, some_finding counts -> ~ passes w (aggregate_value counts)) /\
  (forall per_file, ~ passes w (VArray per_file)).
Proof.
  split; [split | split; [|apply array_does_not_pass]].
  - intros Hrej.
    destruct (resolver_cases w) as [[t H] | [(t & stdout & H & _) | (t & e & H)]].
    + rewrite (module_exports_null w t H) in Hrej. discriminate.
    + destruct (changed_files (platform w) stdout) as [|f fs] eqn:E.
      * rewrite (module_exports_nothing_kept w t stdout H E) in Hrej. discriminate.
      * assert (Hst : staged w t (f :: fs)).
        { rewrite <- E. apply staged_of_text; [assumption | rewrite E; discriminate]. }
        destruct (staged_verdict w t _ Hst) as [(Hok & _) | (_ & Hwhy)].
        -- rewrite Hok in Hrej. discriminate.
        -- eauto.
    + rewrite (module_exports_rejected w t e H) in Hrej.
      destruct (os_run_rejected w _ _ _ H) as (error & stderr & -> & _).
      discriminate.
  - intros (t & files & Hst & [(e & H) | (results & pretty & Hrep & Hnot)]);
      rewrite (module_exports_staged w t files Hst).
    + destruct (lint_block_throws w files e H) as (calls & -> & _). reflexivity.
    + rewrite (lint_block_reports w files results pretty Hrep).
      destruct (counts_condition w results) as [[|]|] eqn:E; try reflexivity.
      apply counts_condition_true in E. contradiction.
  - intros counts Hsome (eslint & _ & H). apply no_findings_true in H.
    rewrite no_findings_aggregate, (some_finding_all_zero counts Hsome) in H.
    discriminate.
Qed.

Lemma rejects_126_iff_witness :
  snd (module_exports (mkWorld "linux" (prints a_ts_b_js) eslint_class_clean))
  = Rejected COMMAND_CANNOT_EXECUTE /\
  ~ passes (mkWorld "linux" (prints a_ts_b_js) eslint_class_clean)
      (aggregate_value one_warning).
Proof.
  split.
  - apply (proj2 (proj1 (rejects_126_iff
                           (mkWorld "linux" (prints a_ts_b_js) eslint_class_clean)))).
    exists [EvExec git_cmd], ["a.ts"; "b.js"]. split.
    + exists a_ts_b_js. split; [|split].
      * eexists. split; reflexivity.
      * reflexivity.
      * discriminate.
    + right.
      exists (VArray [file_result "a.ts" [] clean; file_result "b.js" [] clean]),
        "report".
      split; [eexists; eexists; repeat split|].
      apply (proj2 (proj2 (rejects_126_iff
                             (mkWorld "linux" (prints a_ts_b_js) eslint_class_clean)))).
  - apply (proj1 (proj2 (rejects_126_iff
                           (mkWorld "linux" (prints a_ts_b_js) eslint_class_clean)))
             one_warning).
    right. left. discriminate.
Defined.

(** X8.  The lint engine is reached exactly when the resolver yields text
    of which the path filter keeps at least one path. *)
Theorem engine_invoked_iff (w : World) :
  (exists ev, In ev (fst (module_exports w)) /\ is_lint_event ev = true) <->
  (exists t files, staged w t files).
Proof.
  split.
  - intros (ev & Hin & Hlint).
    destruct (resolver_cases w) as [[t H] | [(t & stdout & H & _) | (t & e & H)]].
    + rewrite (module_exports_null w t H), (resolver_trace w t _ H) in Hin.
      destruct Hin as [<- | []]. discriminate.
    + destruct (changed_files (platform w) stdout) as [|f fs] eqn:E.
      * rewrite (module_exports_nothing_kept w t stdout H E),
          (resolver_trace w t _ H) in Hin.
        destruct Hin as [<- | []]. discriminate.
      * exists t, (f :: fs). rewrite <- E.
        apply staged_of_text; [assumption | rewrite E; discriminate].
    + rewrite (module_exports_rejected w t e H) in Hin. cbn [fst] in Hin.
      replace t with (fst (os_run w git_cmd)) in Hin by now rewrite H.
      apply os_run_trace_shape in Hin as [-> | Hlog]; [discriminate|].
      destruct ev; discriminate.
  - intros (t & files & Hst). exists EvNewESLint. split; [|reflexivity].
    rewrite (module_exports_staged w t files Hst), fst_async. cbn [fst].
    destruct (lint_block_calls w files) as ([t' ->] & _).
    apply in_or_app. right. now left.
Qed.

Lemma engine_invoked_iff_witness :
  exists t files, staged (mkWorld "linux" (prints a_ts_b_js) engine_broken) t files.
Proof.
  apply (proj1 (engine_invoked_iff (mkWorld "linux" (prints a_ts_b_js) engine_broken))).
  exists EvNewESLint. split; [|reflexivity]. cbn. auto.
Defined.

(** X9.  Whatever list [lintFiles] is called with is the filtered list of
    the resolver's output: it is not empty, it does not hold the reserved
    path scripts/pre-commit.js, and each of its paths is not empty, ends in
    one of the four spellings and occurs in the output. *)
Theorem lintFiles_argument (w : World) (files : list string) :
  In (EvLintFiles files) (fst (module_exports w)) ->
  exists t stdout,
    resolver_yields w t (VStr stdout) /\
    files = changed_files (platform w) stdout /\
    files <> [] /\
    ~ In reserved_path files /\
    forall f, In f files ->
      f <> EmptyString /\ has_source_extension f = true /\ occurs_in f stdout.
Proof.
  intros Hin.
  destruct (resolver_cases w) as [[t H] | [(t & stdout & H & _) | (t & e & H)]].
  - rewrite (module_exports_null w t H), (resolver_trace w t _ H) in Hin.
    destruct Hin as [[=] | []].
  - destruct (changed_files (platform w) stdout) as [|f0 fs] eqn:E.
    + rewrite (module_exports_nothing_kept w t stdout H E),
        (resolver_trace w t _ H) in Hin.
      destruct Hin as [[=] | []].
    + assert (Hst : staged w t (f0 :: fs)).
      { rewrite <- E. apply staged_of_text; [assumption | rewrite E; discriminate]. }
      rewrite (module_exports_staged w t _ Hst), fst_async in Hin. cbn [fst] in Hin.
      rewrite (resolver_trace w t _ H) in Hin.
      destruct Hin as [[=] | Hin].
      destruct (lint_block_calls w (f0 :: fs)) as (_ & Hall & _).
      apply Hall in Hin. subst files.
      exists t, stdout. rewrite E.
      split; [assumption|]. split; [reflexivity|]. split; [discriminate|].
      rewrite <- E. unfold changed_files. split.
      * intros Hres. apply filter_In in Hres as [_ Hk].
        rewrite keep_retained in Hk.
        apply retained_iff in Hk as [_ Hne]. now apply Hne.
      * intros f Hf. apply filter_In in Hf as [Hs Hk]. split; [|split].
        -- intros ->. discriminate Hk.
        -- rewrite keep_retained in Hk. unfold retained in Hk.
           now apply andb_true_iff in Hk as [Hk _].
        -- rewrite <- (join_split (platform w) stdout) at 1.
           now apply in_concat_occurs.
  - rewrite (module_exports_rejected w t e H) in Hin. cbn [fst] in Hin.
    replace t with (fst (os_run w git_cmd)) in Hin by now rewrite H.
    apply os_run_trace_shape in Hin as [[=] | [=]].
Qed.

Lemma lintFiles_argument_witness :
  exists t stdout,
    resolver_yields (mkWorld "linux" (prints a_tsx_and_readme) (engine_reporting clean))
      t (VStr stdout) /\
    ["src/a.tsx"] = changed_files "linux" stdout /\
    ["src/a.tsx"] <> [] /\
    ~ In reserved_path ["src/a.tsx"] /\
    forall f, In f ["src/a.tsx"] ->
      f <> EmptyString /\ has_source_extension f = true /\ occurs_in f stdout.
Proof.
  apply (lintFiles_argument
           (mkWorld "linux" (prints a_tsx_and_readme) (engine_reporting clean))
           ["src/a.tsx"]).
  cbn. auto.
Defined.



(** X11.  When the engine reports, the formatter is given the very value
    [lintFiles] returned and its text is logged right after, whatever the
    counts; only logs follow, and none follows exactly when the run
    succeeds. *)
Theorem report_logged_before_verdict (w : World) (t : trace)
    (files : list string) (results : jsval) (pretty : string) :
  staged w t files ->
  engine_reports w files results pretty ->
  exists verdict,
    fst (module_exports w) =
    (t ++ [ EvNewESLint; EvLintFiles files; EvLoadFormatter "stylish";
            EvFormat results; EvLog [VStr pretty] ] ++ verdict)%list /\
    (forall ev, In ev verdict -> is_log ev = true) /\
    (verdict = [] <-> snd (module_exports w) = Fulfilled (VNum 0)).
Proof.
  intros Hst Hrep.
  rewrite (module_exports_staged w t files Hst),
          (lint_block_reports w files results pretty Hrep).
  destruct (counts_condition w results) as [[|]|]; cbn [async fst snd].
  - exists []. repeat split; trivial. intros ev [].
  - eexists [_; _]. split; [reflexivity|]. split.
    + intros ev [<-|[<-|[]]]; reflexivity.
    + split; discriminate.
  - eexists [_]. split; [reflexivity|]. split.
    + intros ev [<-|[]]; reflexivity.
    + split; discriminate.
Qed.

Lemma report_logged_before_verdict_witness :
  exists verdict,
    fst (module_exports (mkWorld "linux" (prints a_ts_b_js) (engine_reporting one_warning))) =
    ([EvExec git_cmd]
     ++ [ EvNewESLint; EvLintFiles ["a.ts"; "b.js"]; EvLoadFormatter "stylish";
          EvFormat (aggregate_value one_warning); EvLog [VStr "report"] ]
     ++ verdict)%list /\
    (forall ev, In ev verdict -> is_log ev = true) /\
    (verdict = [] <->
     snd (module_exports (mkWorld "linux" (prints a_ts_b_js) (engine_reporting one_warning)))
     = Fulfilled (VNum 0)).
Proof.
  apply (report_logged_before_verdict
           (mkWorld "linux" (prints a_ts_b_js) (engine_reporting one_warning))
           [EvExec git_cmd] ["a.ts"; "b.js"] (aggregate_value one_warning) "report").
  - exists a_ts_b_js. split; [|split].
    + eexists. split; reflexivity.
    + reflexivity.
    + discriminate.
  - eexists. eexists. repeat split.
Defined.

(** *** The path filter on listings *)

(** X12.  Splitting loses nothing, on every host: the entries joined with
    the terminator are the raw output again; there is always at least one
    entry; and every entry occurs in the raw output. *)
Theorem split_then_join (platform s : string) :
  String.concat (new_line platform) (split s (new_line platform)) = s /\
  split s (new_line platform) <> [] /\
  (forall entry, In entry (split s (new_line platform)) -> occurs_in entry s).
Proof.
  split; [apply join_split | split].
  - unfold new_line, split.
    destruct (strict_eq _ _); cbn [str_CRLF str_LF]; apply split_scan_nonempty.
  - intros entry H. rewrite <- (join_split platform s) at 1.
    now apply in_concat_occurs.
Qed.

Lemma split_then_join_witness : occurs_in "b.js" a_ts_b_js.
Proof.
  apply (proj2 (proj2 (split_then_join "linux" a_ts_b_js)) "b.js").
  cbn. auto.
Defined.

(** X13.  The filtered list of two texts put together with a terminator
    between them is the filtered list of the first followed by that of the
    second, on every host. *)
Theorem changed_files_app (platform a b : string) :
  changed_files platform (a ++ new_line platform ++ b)
  = (changed_files platform a ++ changed_files platform b)%list.
Proof. unfold changed_files. now rewrite split_app, filter_app. Qed.

(** X14.  For paths that hold no carriage return and no line feed, listed
    each followed by the terminator of the host, the filtered list is exactly
    the paths among them that end in one of the four spellings and are not
    the reserved path, in their order. *)
Theorem listing_filtered (platform : string) (paths : list string) :
  Forall plain paths ->
  changed_files platform (listing (new_line platform) paths)
  = filter retained paths.
Proof.
  induction 1 as [|p rest Hp _ IH].
  - unfold changed_files, new_line. destruct (strict_eq _ _); reflexivity.
  - cbn [listing]. unfold changed_files in *.
    rewrite split_app, filter_app, IH, (split_plain platform p Hp).
    cbn [filter]. rewrite keep_retained. destruct (retained p); reflexivity.
Qed.

Lemma listing_filtered_witness :
  changed_files "win32"
    (listing (new_line "win32") ["src/a.tsx"; "README.md"; "scripts/pre-commit.js"; "b.js"])
  = ["src/a.tsx"; "b.js"].
Proof.
  apply (listing_filtered "win32"
           ["src/a.tsx"; "README.md"; "scripts/pre-commit.js"; "b.js"]).
  repeat constructor.
Defined.

(** X15.  On the host 'win32', a listing whose lines end in the line feed
    alone (and hold no carriage return) is not cut at all: it is one entry,
    which ends in a line feed and is dropped.  The run succeeds without
    reaching the lint engine, whatever paths are listed. *)
Theorem lf_listing_on_win32 (w : World) (paths : list string) (stderr : string) :
  platform w = "win32" ->
  paths <> [] ->
  Forall (fun p => has_unit CR p = false) paths ->
  exec w git_cmd = mkExecOutcome None (listing str_LF paths) stderr ->
  split (listing str_LF paths) (new_line (platform w)) = [listing str_LF paths] /\
  changed_files (platform w) (listing str_LF paths) = [] /\
  module_exports w = ([EvExec git_cmd], Fulfilled (VNum 0)).
Proof.
  intros Hp Hne H Hexec. rewrite Hp.
  assert (Hs : split (listing str_LF paths) (new_line "win32")
               = [listing str_LF paths]).
  { apply (split_scan_CRLF_no_CR _ EmptyString).
    apply has_unit_listing; [reflexivity | assumption]. }
  assert (Hnil : changed_files "win32" (listing str_LF paths) = []).
  { unfold changed_files. rewrite Hs. cbn [filter].
    destruct (listing_ends str_LF paths Hne) as [s ->].
    now rewrite keep_ends_LF. }
  split; [exact Hs | split; [exact Hnil|]].
  apply (module_exports_nothing_kept w _ (listing str_LF paths)).
  - assert (Hout : listing str_LF paths <> EmptyString)
      by (apply listing_not_empty; [discriminate | assumption]).
    eexists. split; [apply (os_run_prints w _ _ stderr Hexec Hout) | reflexivity].
  - now rewrite Hp.
Qed.

Lemma lf_listing_on_win32_witness :
  module_exports (mkWorld "win32" (prints (listing str_LF ["a.ts"; "b.js"]))
                          (engine_reporting one_warning))
  = ([EvExec git_cmd], Fulfilled (VNum 0)).
Proof.
  apply (lf_listing_on_win32
           (mkWorld "win32" (prints (listing str_LF ["a.ts"; "b.js"]))
                    (engine_reporting one_warning))
           ["a.ts"; "b.js"] EmptyString).
  - reflexivity.
  - discriminate.
  - repeat constructor.
  - reflexivity.
Defined.

(** X16.  On a host other than 'win32', a listing whose lines end in
    carriage return, line feed leaves a carriage return at the end of every
    entry, so every entry is dropped.  The run succeeds without reaching the
    lint engine, whatever paths are listed. *)
Theorem crlf_listing_on_lf_host (w : World) (paths : list string) (stderr : string) :
  platform w <> "win32" ->
  paths <> [] ->
  Forall plain paths ->
  exec w git_cmd = mkExecOutcome None (listing str_CRLF paths) stderr ->
  changed_files (platform w) (listing str_CRLF paths) = [] /\
  module_exports w = ([EvExec git_cmd], Fulfilled (VNum 0)).
Proof.
  intros Hp Hne H Hexec.
  destruct (new_line_cases (platform w)) as [[? _] | [_ Hnl]]; [contradiction|].
  assert (Hnil : changed_files (platform w) (listing str_CRLF paths) = []).
  { clear Hne Hexec. unfold changed_files. rewrite Hnl.
    induction H as [|p rest [Hcr Hlf] _ IH]; [reflexivity|].
    cbn [listing].
    replace (p ++ str_CRLF ++ listing str_CRLF rest)
      with ((p ++ String CR EmptyString) ++ str_LF ++ listing str_CRLF rest)
      by (now rewrite append_assoc).
    rewrite <- Hnl, split_app, filter_app, Hnl, IH, app_nil_r.
    unfold split. cbn [str_LF].
    rewrite (split_scan_LF_no_LF _ EmptyString)
      by (now rewrite has_unit_append, Hlf).
    cbn [filter append]. now rewrite keep_ends_CR. }
  split; [exact Hnil|].
  apply (module_exports_nothing_kept w _ (listing str_CRLF paths)); [|exact Hnil].
  assert (Hout : listing str_CRLF paths <> EmptyString)
    by (apply listing_not_empty; [discriminate | assumption]).
  eexists. split; [apply (os_run_prints w _ _ stderr Hexec Hout) | reflexivity].
Qed.

Lemma crlf_listing_on_lf_host_witness :
  module_exports (mkWorld "linux" (prints (listing str_CRLF ["a.ts"; "b.js"]))
                          (engine_reporting one_warning))
  = ([EvExec git_cmd], Fulfilled (VNum 0)).
Proof.
  apply (crlf_listing_on_lf_host
           (mkWorld "linux" (prints (listing str_CRLF ["a.ts"; "b.js"]))
                    (engine_reporting one_warning))
           ["a.ts"; "b.js"] EmptyString).
  - discriminate.
  - discriminate.
  - repeat constructor.
  - reflexivity.
Defined.

(** X17.  The terminator after the last path is optional: for paths that
    hold no carriage return and no line feed, a listing whose last line is
    not terminated is filtered like the terminated one. *)
Theorem final_terminator_optional (platform : string) (paths : list string)
    (last : string) :
  Forall plain paths ->
  plain last ->
  changed_files platform (listing (new_line platform) paths ++ last)
  = filter retained (paths ++ [last]) /\
  changed_files platform (listing (new_line platform) (paths ++ [last]))
  = filter retained (paths ++ [last]).
Proof.
  intros H Hlast. split.
  - induction H as [|p rest Hp _ IH].
    + cbn [listing append app]. unfold changed_files.
      rewrite (split_plain platform last Hlast). cbn [filter].
      rewrite keep_retained. reflexivity.
    + cbn [listing app]. rewrite !append_assoc.
      unfold changed_files in *.
      rewrite split_app, filter_app, IH, (split_plain platform p Hp).
      cbn [filter]. rewrite keep_retained. destruct (retained p); reflexivity.
  - unfold changed_files.
    assert (Hall : Forall plain (paths ++ [last]))
      by (apply Forall_app; split; [assumption | now constructor]).
    clear H Hlast. induction Hall as [|p rest Hp _ IH].
    + unfold new_line. destruct (strict_eq _ _); reflexivity.
    + cbn [listing].
      rewrite split_app, filter_app, IH, (split_plain platform p Hp).
      cbn [filter]. rewrite keep_retained. destruct (retained p); reflexivity.
Qed.

Lemma final_terminator_optional_witness :
  changed_files "linux" (listing (new_line "linux") ["a.ts"; "notes.txt"] ++ "b.jsx")
  = ["a.ts"; "b.jsx"] /\
  changed_files "linux" (listing (new_line "linux") (["a.ts"; "notes.txt"] ++ ["b.jsx"]))
  = ["a.ts"; "b.jsx"].
Proof.
  apply (final_terminator_optional "linux" ["a.ts"; "notes.txt"] "b.jsx").
  - repeat constructor.
  - split; reflexivity.
Defined.
